(** * Groups API of Outline: a shallow embedding of the route handlers

    The handlers of [server/routes/api/groups] (groups.list, groups.info,
    groups.create, groups.update, groups.delete, groups.memberships,
    groups.add_user, groups.remove_user and the provisioning
    [PATCH groups/:id]) are embedded
    as functions over an explicit relational store.  The ORM calls of the
    source become functions on the tables of the store; a handler is a
    computation in a state-and-error monad, so that a throw keeps what was
    written before it, as the source does without a transaction. *)

From Stdlib Require Import List String Ascii ZArith Bool Lia Arith.
From Stdlib Require Import Permutation Sorted.
Import ListNotations.
Open Scope string_scope.

(** ** Rows of the four tables *)

Definition uuid := string.

Record User := mkUser {
  u_id : uuid;
  u_name : string;
  u_email : string;
  u_teamId : uuid
}.

(** The columns of a group row that the handlers read or write. *)
Record GroupRow := mkGroupRow {
  gr_id : uuid;
  gr_name : string;
  gr_teamId : uuid;
  gr_createdById : uuid
}.

Record GroupUser := mkGroupUser {
  gu_groupId : uuid;
  gu_userId : uuid;
  gu_createdById : uuid;
  gu_createdAt : Z
}.

(** [Event.create({ name, userId, teamId, modelId, actorId, data: { name }, ip })] *)
Record Event := mkEvent {
  ev_name : string;
  ev_userId : option uuid;
  ev_teamId : uuid;
  ev_modelId : uuid;
  ev_actorId : uuid;
  ev_data_name : string;
  ev_ip : string
}.

Record Store := mkStore {
  groups : list GroupRow;
  users : list User;
  group_users : list GroupUser;
  events : list Event
}.

(** ** Model instances

    A fetched membership carries the joined user (absent when the user row
    is gone); a fetched group carries its memberships and the change flag
    that Sequelize keeps for the attributes of the instance. *)

Record Membership := mkMembership {
  m_row : GroupUser;
  m_user : option User
}.

Record Group := mkGroup {
  g_row : GroupRow;
  groupMemberships : list Membership;
  g_changed : bool
}.

Definition g_id (g : Group) : uuid := gr_id (g_row g).
Definition g_name (g : Group) : string := gr_name (g_row g).
Definition g_teamId (g : Group) : uuid := gr_teamId (g_row g).

(** ** Errors and the handler monad *)

Inductive error :=
| ValidationError
| AuthorizationError      (* Forbidden *)
| NotFoundError           (* Sequelize EmptyResultError of rejectOnEmpty *)
| TypeError               (* a JavaScript TypeError thrown by the handler *)
| DatabaseError.          (* a query the database or the ORM refuses *)

Inductive result (A : Type) :=
| Ok (a : A)
| Err (e : error).
Arguments Ok {A} a.
Arguments Err {A} e.

Definition M (A : Type) : Type := Store -> result A * Store.

Definition ret {A} (a : A) : M A := fun s => (Ok a, s).
Definition throw {A} (e : error) : M A := fun s => (Err e, s).
Definition bind {A B} (m : M A) (k : A -> M B) : M B :=
  fun s => match m s with
           | (Ok a, s') => k a s'
           | (Err e, s') => (Err e, s')
           end.
Definition gets {A} (f : Store -> A) : M A := fun s => (Ok (f s), s).
Definition modify (f : Store -> Store) : M unit := fun s => (Ok tt, f s).

Declare Scope handler_scope.
Delimit Scope handler_scope with handler.
Notation "x <- m ;; k" := (bind m (fun x => k))
  (at level 61, m at next level, right associativity) : handler_scope.
Notation "m ;;; k" := (bind m (fun _ => k))
  (at level 61, right associativity) : handler_scope.
Open Scope handler_scope.

(** ** The ORM calls the handlers make *)

Definition User_findByPk (id : uuid) : M (option User) :=
  gets (fun s => find (fun u => u_id u =? id) (users s)).

(** The join of a membership row with its user. *)
Definition join_user (s : Store) (r : GroupUser) : Membership :=
  mkMembership r (find (fun u => u_id u =? gu_userId r) (users s)).

Definition memberships_of (s : Store) (id : uuid) : list Membership :=
  map (join_user s) (filter (fun r => gu_groupId r =? id) (group_users s)).

(** Modelled from the spec: the default scope of the Group model (the model
    itself is not among the sources), which loads a group together with its
    memberships.  A fetched instance has no changed attribute. *)
Definition load_group (s : Store) (r : GroupRow) : Group :=
  mkGroup r (memberships_of s (gr_id r)) false.

Definition Group_findByPk (id : uuid) : M (option Group) :=
  gets (fun s => option_map (load_group s)
                   (find (fun r => gr_id r =? id) (groups s))).

(** [findByPk(id, { rejectOnEmpty: true })], with the id of a row. *)
Definition Group_findByPk_reject (id : uuid) : M Group :=
  g <- Group_findByPk id ;;
  match g with
  | Some g => ret g
  | None => throw NotFoundError
  end.

(** [GroupUser.findOne({ where: { groupId, userId } })] *)
Definition GroupUser_findOne (groupId userId : uuid) : M (option Membership) :=
  gets (fun s => option_map (join_user s)
                   (find (fun r => (gu_groupId r =? groupId) && (gu_userId r =? userId))
                         (group_users s))).

Definition GroupUser_findOne_reject (groupId userId : uuid) : M Membership :=
  m <- GroupUser_findOne groupId userId ;;
  match m with
  | Some m => ret m
  | None => throw NotFoundError
  end.

(** [GroupUser.findOne({ where: { groupId } })] *)
Definition GroupUser_findOne_group (groupId : uuid) : M (option Membership) :=
  gets (fun s => option_map (join_user s)
                   (find (fun r => gu_groupId r =? groupId) (group_users s))).

Definition Event_create (e : Event) : M unit :=
  modify (fun s => mkStore (groups s) (users s) (group_users s) (events s ++ [e])).

(** Assignment [group.name = name]: Sequelize marks the attribute changed
    only when the new value differs from the one the instance holds. *)
Definition set_name (g : Group) (name : string) : Group :=
  if gr_name (g_row g) =? name then g
  else mkGroup (mkGroupRow (gr_id (g_row g)) name (gr_teamId (g_row g))
                           (gr_createdById (g_row g)))
               (groupMemberships g) true.

(** [group.changed()] is falsy exactly when no attribute changed. *)
Definition changed (g : Group) : bool := g_changed g.

(** [group.save()]: writes the attributes to the row of that id and clears
    the change flag of the instance. *)
Definition Group_save (g : Group) : M Group :=
  modify (fun s =>
    mkStore (map (fun r => if gr_id r =? g_id g then g_row g else r) (groups s))
            (users s) (group_users s) (events s)) ;;;
  ret (mkGroup (g_row g) (groupMemberships g) false).

(** Modelled from the spec: [group.destroy()] on the Group model, which is
    not among the sources; the row is removed and its memberships go with it
    (cascade). *)
Definition Group_destroy (g : Group) : M unit :=
  modify (fun s =>
    mkStore (filter (fun r => negb (gr_id r =? g_id g)) (groups s))
            (users s)
            (filter (fun r => negb (gu_groupId r =? g_id g)) (group_users s))
            (events s)).

Definition same_pair (groupId userId : uuid) (r : GroupUser) : bool :=
  (gu_groupId r =? groupId) && (gu_userId r =? userId).

(** [group.$add("user", user, { through: { createdById } })]: the
    belongs-to-many mixin inserts a through row when the pair has none and
    otherwise brings the through attributes of the existing row up to date.
    The attributes of [group] itself are not touched. *)
Definition Group_add_user (g : Group) (u : User) (createdById : uuid) (now : Z) : M unit :=
  modify (fun s =>
    mkStore (groups s) (users s)
      (if existsb (same_pair (g_id g) (u_id u)) (group_users s)
       then map (fun r => if same_pair (g_id g) (u_id u) r
                          then mkGroupUser (gu_groupId r) (gu_userId r) createdById
                                           (gu_createdAt r)
                          else r) (group_users s)
       else group_users s ++ [mkGroupUser (g_id g) (u_id u) createdById now])
      (events s)).

(** [group.$remove("user", user)]: deletes the through rows of the pair. *)
Definition Group_remove_user (g : Group) (u : User) : M unit :=
  modify (fun s =>
    mkStore (groups s) (users s)
      (filter (fun r => negb (same_pair (g_id g) (u_id u) r)) (group_users s))
      (events s)).

(** ** Request context *)

Record Pagination := mkPagination { offset : nat; limit : nat }.

Record Ctx := mkCtx {
  auth_user : User;          (* ctx.state.auth.user *)
  request_ip : string;       (* ctx.request.ip *)
  request_time : Z;          (* the time of the request, for createdAt *)
  pagination : Pagination    (* ctx.state.pagination *)
}.

Inductive target :=
| TGroup (g : Group)
| TUser (u : User).

(** ** Ordering and paging of query results *)

Fixpoint insert_by {A} (leb : A -> A -> bool) (x : A) (l : list A) : list A :=
  match l with
  | [] => [x]
  | y :: l' => if leb x y then x :: l else y :: insert_by leb x l'
  end.

Fixpoint sort_by {A} (leb : A -> A -> bool) (l : list A) : list A :=
  match l with
  | [] => []
  | x :: l' => insert_by leb x (sort_by leb l')
  end.

(** [offset] and [limit] of a query. *)
Definition page {A} (p : Pagination) (l : list A) : list A :=
  firstn (limit p) (skipn (offset p) l).

(** JavaScript truthiness of a string that may be undefined. *)
Definition truthy (s : option string) : bool :=
  match s with
  | Some s => negb (s =? "")
  | None => false
  end.

(** ** Case-insensitive LIKE

    [Op.iLike] is the ILIKE of the database.  The database lowercases the
    pattern and the text, character by character, and matches the results:
    in the pattern [%] stands for any run of characters, [_] for any one
    character and a backslash takes the next character literally.  A
    character is the group of bytes of its UTF-8 encoding: a byte together
    with the continuation bytes that follow it.  How a character is
    lowercased depends on the locale of the database and is a parameter of
    [iLike]. *)

Definition chars (s : string) : list ascii := list_ascii_of_string s.

Definition character : Type := list ascii.

(** A continuation byte of UTF-8, [10xxxxxx]. *)
Definition continuation (c : ascii) : bool :=
  let n := nat_of_ascii c in (128 <=? n)%nat && (n <? 192)%nat.

Fixpoint utf8_chars (s : list ascii) : list character :=
  match s with
  | [] => []
  | c :: s' =>
      match utf8_chars s' with
      | (d :: g) :: rest =>
          if continuation d then (c :: d :: g) :: rest else [c] :: (d :: g) :: rest
      | rest => [c] :: rest
      end
  end.

Definition text (s : string) : list character := utf8_chars (chars s).

Fixpoint char_eqb (a b : character) : bool :=
  match a, b with
  | [], [] => true
  | x :: a', y :: b' => Ascii.eqb x y && char_eqb a' b'
  | _, _ => false
  end.

Definition pct : character := ["%"%char].
Definition underscore : character := ["_"%char].
Definition backslash : character := ["\"%char].

Fixpoint like (p s : list character) {struct p} : bool :=
  match p with
  | [] => match s with [] => true | _ => false end
  | c :: p' =>
      if char_eqb c pct then
        (fix any (s : list character) : bool :=
           like p' s || match s with [] => false | _ :: s' => any s' end) s
      else if char_eqb c underscore then
        match s with [] => false | _ :: s' => like p' s' end
      else if char_eqb c backslash then
        match p' with
        | [] => false
        | e :: p'' =>
            match s with
            | [] => false
            | d :: s' => char_eqb e d && like p'' s'
            end
        end
      else
        match s with
        | [] => false
        | d :: s' => char_eqb c d && like p' s'
        end
  end.

Definition iLike (lower : character -> character) (pattern s : string) : bool :=
  like (map lower (text pattern)) (map lower (text s)).

(** Lowercasing of the ASCII letters only, as in the C locale. *)
Definition lower_ascii (c : ascii) : ascii :=
  let n := nat_of_ascii c in
  if (65 <=? n)%nat && (n <=? 90)%nat then ascii_of_nat (n + 32) else c.

Definition lower_C (c : character) : character := map lower_ascii c.

(** ** Request inputs, as the schemas type them *)

Record GroupsListReq := mkGroupsListReq {
  list_direction : string;
  list_sort : string;
  list_userId : option uuid;
  list_name : option string
}.

Record GroupsUpdateReq := mkGroupsUpdateReq { upd_id : uuid; upd_name : string }.

Record GroupsMembershipsReq := mkGroupsMembershipsReq {
  mem_id : uuid;
  mem_query : option string
}.

Record GroupsUserReq := mkGroupsUserReq { gur_id : uuid; gur_userId : uuid }.

(** ** Response bodies (before the presenters, which are not modelled) *)

Record ListBody := mkListBody {
  lb_groups : list Group;
  lb_groupMemberships : list Membership
}.

Record MembershipsBody := mkMembershipsBody {
  mb_groupMemberships : list Membership;
  mb_users : list (option User)
}.

Record AddUserBody := mkAddUserBody {
  ab_users : list User;
  ab_groupMemberships : list Membership;
  ab_groups : list Group
}.

(** ** The route handlers *)

Section Handlers.

(** The policy layer ([server/policies]) decides what an actor may do to
    a subject; it is taken as it comes. *)
Variable can : User -> string -> target -> bool.

(** [MAX_AVATAR_DISPLAY] of [@shared/constants]. *)
Variable MAX_AVATAR_DISPLAY : nat.

(** The order of the database on a named column of the groups table,
    ascending. *)
Variable group_column_leb : string -> GroupRow -> GroupRow -> bool.

(** The lowercasing of a character by the database, which goes by its
    locale. *)
Variable db_lower : character -> character.

(** Modelled from the spec: [authorize(actor, action, subject)] of the
    policy layer, not among the sources, signals Forbidden when the policy
    denies.  It asserts its subject: the handlers use the subject as
    present after the call, so an absent subject is denied. *)
Definition authorize {T} (inj : T -> target) (actor : User) (action : string)
    (subject : option T) : M T :=
  match subject with
  | Some x => if can actor action (inj x) then ret x else throw AuthorizationError
  | None => throw AuthorizationError
  end.

(** Modelled from the spec: [Group.filterByMember(userId)], a static of
    the Group model, not among the sources: with a user id, only the groups
    that have this user as a member. *)
Definition filterByMember (userId : option uuid) (g : Group) : bool :=
  match userId with
  | Some uid =>
      if truthy (Some uid)
      then existsb (fun m => gu_userId (m_row m) =? uid) (groupMemberships g)
      else true
  | None => true
  end.

Definition group_order (sort direction : string) (a b : Group) : bool :=
  if direction =? "DESC"
  then group_column_leb sort (g_row b) (g_row a)
  else group_column_leb sort (g_row a) (g_row b).

(** [Group.filterByMember(userId).findAll({ where, order, offset, limit })] *)
Definition Group_findAll (userId : option uuid) (where_ : Group -> bool)
    (sort direction : string) (p : Pagination) : M (list Group) :=
  gets (fun s =>
    page p (sort_by (group_order sort direction)
              (filter (fun g => filterByMember userId g && where_ g)
                      (map (load_group s) (groups s))))).

Definition has_user (membership : Membership) : bool :=
  match m_user membership with Some _ => true | None => false end.

(** [groups.list] *)
Definition groups_list (ctx : Ctx) (input : GroupsListReq) : M ListBody :=
  let user := auth_user ctx in
  let where_ := fun g : Group =>
    (g_teamId g =? u_teamId user)
    && (if truthy (list_name input)
        then match list_name input with
             | Some name => g_name g =? name
             | None => true
             end
        else true) in
  groups <- Group_findAll (list_userId input) where_
              (list_sort input) (list_direction input) (pagination ctx) ;;
  ret (mkListBody groups
         (List.concat (map (fun g => firstn MAX_AVATAR_DISPLAY
                                  (filter has_user (groupMemberships g)))
                      groups))).

(** [groups.info] *)
Definition groups_info (ctx : Ctx) (id : uuid) : M Group :=
  let user := auth_user ctx in
  group <- Group_findByPk id ;;
  group <- authorize TGroup user "read" group ;;
  ret group.

(** [groups.update] *)
Definition groups_update (ctx : Ctx) (input : GroupsUpdateReq) : M Group :=
  let id := upd_id input in
  let name := upd_name input in
  let user := auth_user ctx in
  group <- Group_findByPk id ;;
  group <- authorize TGroup user "update" group ;;
  let group := set_name group name in
  if changed group then
    group <- Group_save group ;;
    Event_create (mkEvent "groups.update" None (u_teamId user) (g_id group)
                          (u_id user) name (request_ip ctx)) ;;;
    ret group
  else ret group.

(** [groups.delete] *)
Definition groups_delete (ctx : Ctx) (id : uuid) : M bool :=
  let user := auth_user ctx in
  group <- Group_findByPk id ;;
  group <- authorize TGroup user "delete" group ;;
  Group_destroy group ;;;
  Event_create (mkEvent "groups.delete" None (g_teamId group) (g_id group)
                        (u_id user) (g_name group) (request_ip ctx)) ;;;
  ret true.

(** [GroupUser.findAll] of groups.memberships: the rows of the group,
    inner-joined with their user ([required: true]) under [userWhere],
    newest first, then paged. *)
Definition newest_first (a b : Membership) : bool :=
  (gu_createdAt (m_row b) <=? gu_createdAt (m_row a))%Z.

Definition user_matches (userWhere : option string) (membership : Membership) : bool :=
  match m_user membership with
  | Some u => match userWhere with
              | Some pattern => iLike db_lower pattern (u_name u)
              | None => true
              end
  | None => false
  end.

Definition GroupUser_findAll (id : uuid) (userWhere : option string)
    (p : Pagination) : M (list Membership) :=
  gets (fun s =>
    page p (sort_by newest_first
              (filter (user_matches userWhere) (memberships_of s id)))).

(** [groups.memberships] *)
Definition groups_memberships (ctx : Ctx) (input : GroupsMembershipsReq)
    : M MembershipsBody :=
  let id := mem_id input in
  let query := mem_query input in
  let user := auth_user ctx in
  group <- Group_findByPk id ;;
  _ <- authorize TGroup user "read" group ;;
  let userWhere :=
    if truthy query
    then match query with
         | Some q => Some ("%" ++ q ++ "%")
         | None => None
         end
    else None in
  memberships <- GroupUser_findAll id userWhere (pagination ctx) ;;
  ret (mkMembershipsBody memberships (map m_user memberships)).

(** [groups.add_user] *)
Definition groups_add_user (ctx : Ctx) (input : GroupsUserReq) : M AddUserBody :=
  let id := gur_id input in
  let userId := gur_userId input in
  let actor := auth_user ctx in
  user <- User_findByPk userId ;;
  user <- authorize TUser actor "read" user ;;
  group <- Group_findByPk id ;;
  group <- authorize TGroup actor "update" group ;;
  membership <- GroupUser_findOne id userId ;;
  match membership with
  | None =>
      Group_add_user group user (u_id actor) (request_time ctx) ;;;
      membership <- GroupUser_findOne_reject id userId ;;
      group <- Group_findByPk_reject id ;;
      Event_create (mkEvent "groups.add_user" (Some userId) (u_teamId user)
                            (g_id group) (u_id actor) (u_name user)
                            (request_ip ctx)) ;;;
      ret (mkAddUserBody [user] [membership] [group])
  | Some membership =>
      ret (mkAddUserBody [user] [membership] [group])
  end.

(** [groups.remove_user] *)
Definition groups_remove_user (ctx : Ctx) (input : GroupsUserReq) : M Group :=
  let id := gur_id input in
  let userId := gur_userId input in
  let actor := auth_user ctx in
  group <- Group_findByPk id ;;
  group <- authorize TGroup actor "update" group ;;
  user <- User_findByPk userId ;;
  user <- authorize TUser actor "read" user ;;
  Group_remove_user group user ;;;
  Event_create (mkEvent "groups.remove_user" (Some userId) (u_teamId user)
                        (g_id group) (u_id actor) (u_name user)
                        (request_ip ctx)) ;;;
  group <- Group_findByPk_reject id ;;
  ret group.

End Handlers.

(** ** The provisioning endpoint, [PATCH groups/:id]

    The request body is whatever JSON the caller sent; no schema is applied
    to it.  A JavaScript value is a JSON value or [undefined] ([None]). *)

#[local] Unset Elimination Schemes.
Inductive json :=
| JNull
| JBool (b : bool)
| JNum (n : Z)
| JStr (s : string)
| JArr (items : list json)
| JObj (fields : list (string * json)).
#[local] Set Elimination Schemes.

Definition jsval := option json.

Fixpoint lookup (key : string) (fields : list (string * json)) : jsval :=
  match fields with
  | [] => None
  | (k, v) :: rest => if k =? key then Some v else lookup key rest
  end.

(** [v.name] for a name that is no property of arrays, strings, numbers or
    booleans (here: Operations, value, op, email); [v] is neither null nor
    undefined. *)
Definition get_prop (name : string) (v : json) : jsval :=
  match v with
  | JObj fields => lookup name fields
  | _ => None
  end.

(** [v[0]] for [v] neither null nor undefined: the first element of an
    array, the property "0" of an object, the first character of a string. *)
Definition get_index0 (v : json) : jsval :=
  match v with
  | JArr items => match items with x :: _ => Some x | [] => None end
  | JObj fields => lookup "0" fields
  | JStr (String c _) => Some (JStr (String c ""))
  | _ => None
  end.

(** Optional chaining [v?.p]: undefined when [v] is null or undefined. *)
Definition optional (v : jsval) (access : json -> jsval) : jsval :=
  match v with
  | None => None
  | Some JNull => None
  | Some x => access x
  end.

(** [ctx.request.body?.["Operations"]?.[0]] *)
Definition operation0 (body : jsval) : jsval :=
  optional (optional body (get_prop "Operations")) get_index0.

(** [ctx.request.body?.["Operations"]?.[0]?.value ?? null] *)
Definition arrayUsers (body : jsval) : json :=
  match optional (operation0 body) (get_prop "value") with
  | Some x => x
  | None => JNull
  end.

(** [user.email] inside the map callback: a TypeError on null. *)
Definition email_of (user : json) : option jsval :=
  match user with
  | JNull => None
  | x => Some (get_prop "email" x)
  end.

Fixpoint map_email (items : list json) : option (list jsval) :=
  match items with
  | [] => Some []
  | user :: rest =>
      match email_of user with
      | None => None
      | Some e => match map_email rest with
                  | None => None
                  | Some es => Some (e :: es)
                  end
      end
  end.

(** [arrayUsers.map((user) => user.email)]: only an array has [map]; on
    anything else, null included, the call throws a TypeError. *)
Definition arrayEmailAddresses (body : jsval) : option (list jsval) :=
  match arrayUsers body with
  | JArr items => map_email items
  | _ => None
  end.

(** [ctx.request.body?.["Operations"]?.[0]?.op === name] *)
Definition op_is (body : jsval) (name : string) : bool :=
  match optional (operation0 body) (get_prop "op") with
  | Some (JStr s) => s =? name
  | _ => false
  end.

(** [User.findAll({ where: { email: arrayEmailAddresses } })]: the users
    whose email is one of the strings of the array.  The array becomes the
    list of an SQL [IN]: undefined and null go in as NULL and equal no email;
    a number, a boolean, an array or an object makes the query fail, in the
    ORM or in the database, which compares the entries with a text
    column. *)
Definition email_in (emails : list jsval) (u : User) : bool :=
  existsb (fun e => match e with
                    | Some (JStr s) => s =? u_email u
                    | _ => false
                    end) emails.

Definition bindable (e : jsval) : bool :=
  match e with
  | None | Some JNull | Some (JStr _) => true
  | Some (JBool _) | Some (JNum _) | Some (JArr _) | Some (JObj _) => false
  end.

(** The entries that make the query fail for certain: a number, a boolean
    or an object. *)
Definition refused (e : jsval) : bool :=
  match e with
  | Some (JNum _) | Some (JBool _) | Some (JObj _) => true
  | _ => false
  end.

Definition is_string (e : jsval) : bool :=
  match e with
  | Some (JStr _) => true
  | _ => false
  end.

Definition User_findAll (emails : list jsval) : M (list User) :=
  if forallb bindable emails
  then gets (fun s => filter (email_in emails) (users s))
  else throw DatabaseError.

(** What the database reads as a uuid: sixteen pairs of hexadecimal digits,
    a hyphen allowed after every second pair but the last, the whole
    optionally in braces. *)
Definition hex_digit (c : ascii) : bool :=
  let n := nat_of_ascii c in
  ((48 <=? n)%nat && (n <=? 57)%nat)
  || ((65 <=? n)%nat && (n <=? 70)%nat)
  || ((97 <=? n)%nat && (n <=? 102)%nat).

Fixpoint uuid_pairs (remaining : nat) (s : list ascii) : option (list ascii) :=
  match remaining with
  | 0 => Some s
  | S k =>
      match s with
      | a :: b :: rest =>
          if hex_digit a && hex_digit b then
            match rest with
            | h :: rest' =>
                if Ascii.eqb h "-" && Nat.odd (15 - k) && negb (k =? 0)%nat
                then uuid_pairs k rest'
                else uuid_pairs k rest
            | [] => uuid_pairs k rest
            end
          else None
      | _ => None
      end
  end.

Definition uuid_syntax (id : string) : bool :=
  match chars id with
  | "{"%char :: s =>
      match uuid_pairs 16 s with
      | Some ["}"%char] => true
      | _ => false
      end
  | s =>
      match uuid_pairs 16 s with
      | Some [] => true
      | _ => false
      end
  end.

(** The form in which the database gives a uuid out, and in which the rows
    hold it: 8-4-4-4-12 digits, the letters in lower case. *)
Definition uuid_canonical (id : string) : bool :=
  uuid_syntax id
  && (String.length id =? 36)%nat
  && forallb (fun c => Ascii.eqb c "-" || (hex_digit c && Ascii.eqb (lower_ascii c) c))
             (chars id)
  && forallb (fun i => match nth_error (chars id) i with
                       | Some c => Ascii.eqb c "-"
                       | None => false
                       end) [8; 13; 18; 23].

(** [Group.findOne({ where: { id }, rejectOnEmpty: true })] with the id of
    the path, which went through no schema.  The id column holds uuids, in
    their canonical form: a row found under the string means the string is
    one; with no row found, the query is refused when the string is no uuid
    and the result is empty when it is.  Rows are looked up by the string:
    another spelling of the uuid of a row (upper case, braces) is not
    followed to that row. *)
Definition Group_findOne_reject (id : string) : M Group :=
  g <- Group_findByPk id ;;
  match g with
  | Some g => ret g
  | None => if uuid_syntax id then throw NotFoundError else throw DatabaseError
  end.

Record PatchCtx := mkPatchCtx {
  params_id : uuid;            (* ctx.params.id *)
  request_body : jsval;        (* ctx.request.body *)
  patch_ip : string;           (* ctx.request.ip *)
  patch_time : Z;
  DESK_UUID : option string    (* process.env.DESK_UUID *)
}.

Record PatchBody := mkPatchBody {
  pb_ok : bool;
  pb_group : Group;
  pb_groupUsers : option Membership;
  pb_arrayUserModels : list User
}.

(** [process.env.DESK_UUID || null] *)
Definition authorId_of (ctx : PatchCtx) : option string :=
  if truthy (DESK_UUID ctx) then DESK_UUID ctx else None.

(** The variables [group] and [groupUsers], shared by the callbacks. *)
Definition Shared : Type := Group * option Membership.

(** The callback of [arrayUserModels.map], for one user. *)
Definition sync_user (ctx : PatchCtx) (authorId : string) (userModel : User)
    (shared : Shared) : M Shared :=
  let id := params_id ctx in
  let '(group, groupUsers) := shared in
  membership <- GroupUser_findOne id (u_id userModel) ;;
  r <- match membership with
       | None =>
           if op_is (request_body ctx) "add" then
             Group_add_user group userModel authorId (patch_time ctx) ;;;
             if changed group then
               group <- Group_save group ;;
               Event_create (mkEvent "groups.add_user" (Some (u_id userModel))
                                     (u_teamId userModel) (g_id group) authorId
                                     (u_name userModel) (patch_ip ctx)) ;;;
               membership <- GroupUser_findOne (g_id group) (u_id userModel) ;;
               group <- Group_findByPk_reject (g_id group) ;;
               ret (membership, (group, membership))
             else ret (None, (group, groupUsers))
           else ret (None, (group, groupUsers))
       | Some _ => ret (membership, (group, groupUsers))
       end ;;
  let '(membership, (group, groupUsers)) := r in
  if op_is (request_body ctx) "remove"
     && match membership with Some _ => true | None => false end
  then
    Group_remove_user group userModel ;;;
    if changed group then
      group <- Group_save group ;;
      Event_create (mkEvent "groups.remove_user" (Some (u_id userModel))
                            (u_teamId userModel) (g_id group) authorId
                            (u_name userModel) (patch_ip ctx)) ;;;
      membership <- GroupUser_findOne (g_id group) (u_id userModel) ;;
      group <- Group_findByPk_reject (g_id group) ;;
      ret (group, membership)
    else ret (group, groupUsers)
  else ret (group, groupUsers).

(** [Promise.all(arrayUserModels.map(...))]: the callbacks touch the rows of
    different users; they are run here one after the other, in the order of
    the array. *)
Fixpoint sync_users (ctx : PatchCtx) (authorId : string) (us : list User)
    (shared : Shared) : M Shared :=
  match us with
  | [] => ret shared
  | userModel :: rest =>
      shared <- sync_user ctx authorId userModel shared ;;
      sync_users ctx authorId rest shared
  end.

Definition groups_patch (ctx : PatchCtx) : M PatchBody :=
  let id := params_id ctx in
  match arrayEmailAddresses (request_body ctx) with
  | None => throw TypeError
  | Some arrayEmailAddresses =>
      group <- Group_findOne_reject id ;;
      groupUsers <- GroupUser_findOne_group id ;;
      arrayUserModels <- User_findAll arrayEmailAddresses ;;
      shared <- match authorId_of ctx with
                | Some authorId =>
                    sync_users ctx authorId arrayUserModels (group, groupUsers)
                | None => ret (group, groupUsers)
                end ;;
      ret (mkPatchBody true (fst shared) (snd shared) arrayUserModels)
  end.

(** ** groups.create *)

(** [Group.create({ name, teamId, createdById })]: inserts the row.  The id
    is the one the database generates for the row; it is given by the
    caller. *)
Definition Group_create (generated_id : uuid) (name : string)
    (teamId createdById : uuid) : M GroupRow :=
  let row := mkGroupRow generated_id name teamId createdById in
  modify (fun s => mkStore (groups s ++ [row]) (users s) (group_users s) (events s)) ;;;
  ret row.

Section Create.

(** The policy on groups and users, and the policy on the team of the
    actor ([user.team], loaded by the authentication middleware and stood
    for by its id). *)
Variable can : User -> string -> target -> bool.
Variable can_team : User -> string -> uuid -> bool.

Definition authorize_team (actor : User) (action : string) (teamId : uuid) : M unit :=
  if can_team actor action teamId then ret tt else throw AuthorizationError.

(** [groups.create], behind the rate limiter, [auth()] and
    [validate(T.GroupsCreateSchema)]. *)
Definition groups_create (ctx : Ctx) (generated_id : uuid) (name : string) : M Group :=
  let user := auth_user ctx in
  authorize_team user "createGroup" (u_teamId user) ;;;
  g <- Group_create generated_id name (u_teamId user) (u_id user) ;;
  group <- Group_findByPk_reject (gr_id g) ;;
  Event_create (mkEvent "groups.create" None (u_teamId user) (g_id group)
                        (u_id user) (g_name group) (request_ip ctx)) ;;;
  ret group.

End Create.

(** ** The middleware in front of the handlers *)

(** Modelled from the spec: the [validate(schema)] middleware and the
    schemas of [./schema], not among the sources: the body is parsed against
    the schema before the handler runs, and a body the schema refuses is
    answered with a validation error. *)
Definition validate {I A} (schema : jsval -> option I) (handler : I -> M A)
    (body : jsval) : M A :=
  match schema body with
  | Some input => handler input
  | None => throw ValidationError
  end.

(** The schemas of the eight validated routes. *)
Record Schemas := mkSchemas {
  GroupsListSchema : jsval -> option GroupsListReq;
  GroupsInfoSchema : jsval -> option uuid;
  GroupsCreateSchema : jsval -> option string;
  GroupsUpdateSchema : jsval -> option GroupsUpdateReq;
  GroupsDeleteSchema : jsval -> option uuid;
  GroupsMembershipsSchema : jsval -> option GroupsMembershipsReq;
  GroupsAddUserSchema : jsval -> option GroupsUserReq;
  GroupsRemoveUserSchema : jsval -> option GroupsUserReq
}.

Inductive route :=
| groups_list_route
| groups_info_route
| groups_create_route
| groups_update_route
| groups_delete_route
| groups_memberships_route
| groups_add_user_route
| groups_remove_user_route.

Definition is_some {A} (o : option A) : bool :=
  match o with Some _ => true | None => false end.

(** Whether the schema of the route accepts the body. *)
Definition accepts (T : Schemas) (r : route) (body : jsval) : bool :=
  match r with
  | groups_list_route => is_some (GroupsListSchema T body)
  | groups_info_route => is_some (GroupsInfoSchema T body)
  | groups_create_route => is_some (GroupsCreateSchema T body)
  | groups_update_route => is_some (GroupsUpdateSchema T body)
  | groups_delete_route => is_some (GroupsDeleteSchema T body)
  | groups_memberships_route => is_some (GroupsMembershipsSchema T body)
  | groups_add_user_route => is_some (GroupsAddUserSchema T body)
  | groups_remove_user_route => is_some (GroupsRemoveUserSchema T body)
  end.

(** What a request leaves behind: the error, if any, and the store. *)
Definition outcome {A} (r : result A * Store) : option error * Store :=
  match r with
  | (Ok _, s) => (None, s)
  | (Err e, s) => (Some e, s)
  end.

Section Router.

Variable can : User -> string -> target -> bool.
Variable can_team : User -> string -> uuid -> bool.
Variable MAX_AVATAR_DISPLAY : nat.
Variable group_column_leb : string -> GroupRow -> GroupRow -> bool.
Variable db_lower : character -> character.
Variable T : Schemas.

(** The id the database generates if the request inserts a group. *)
Variable generated_id : uuid.

(** [router.post(name, auth(), validate(T.Schema), handler)]; groups.create
    has the rate limiter in front, which is not modelled. *)
Definition serve (r : route) (ctx : Ctx) (body : jsval) (s : Store)
    : option error * Store :=
  match r with
  | groups_list_route =>
      outcome (validate (GroupsListSchema T)
                 (groups_list MAX_AVATAR_DISPLAY group_column_leb ctx) body s)
  | groups_info_route =>
      outcome (validate (GroupsInfoSchema T) (groups_info can ctx) body s)
  | groups_create_route =>
      outcome (validate (GroupsCreateSchema T)
                 (groups_create can_team ctx generated_id) body s)
  | groups_update_route =>
      outcome (validate (GroupsUpdateSchema T) (groups_update can ctx) body s)
  | groups_delete_route =>
      outcome (validate (GroupsDeleteSchema T) (groups_delete can ctx) body s)
  | groups_memberships_route =>
      outcome (validate (GroupsMembershipsSchema T)
                 (groups_memberships can db_lower ctx) body s)
  | groups_add_user_route =>
      outcome (validate (GroupsAddUserSchema T) (groups_add_user can ctx) body s)
  | groups_remove_user_route =>
      outcome (validate (GroupsRemoveUserSchema T) (groups_remove_user can ctx) body s)
  end.

End Router.

(** The body of the provisioning request as the interface describes it: an
    object whose [Operations] is an array, the first element of which has
    an [op] that is "add" or "remove" and a [value] that is an array of
    objects with an [email] string. *)
Definition is_email_entry (v : json) : bool :=
  match v with
  | JObj fields => match lookup "email" fields with
                   | Some (JStr _) => true
                   | _ => false
                   end
  | _ => false
  end.

Definition well_formed_body (body : jsval) : bool :=
  match body with
  | Some (JObj fields) =>
      match lookup "Operations" fields with
      | Some (JArr (JObj operation :: _)) =>
          match lookup "op" operation, lookup "value" operation with
          | Some (JStr op), Some (JArr items) =>
              ((op =? "add") || (op =? "remove")) && forallb is_email_entry items
          | _, _ => false
          end
      | _ => false
      end
  | _ => false
  end.

(** Case-insensitive containment, and queries without LIKE metacharacters.
    Both go by the lowercasing of the database. *)
Fixpoint starts_with (q s : list character) : bool :=
  match q, s with
  | [], _ => true
  | _ :: _, [] => false
  | c :: q', d :: s' => char_eqb c d && starts_with q' s'
  end.

Fixpoint contains (q s : list character) : bool :=
  starts_with q s || match s with [] => false | _ :: s' => contains q s' end.

Definition contains_ci (lower : character -> character) (q s : string) : bool :=
  contains (map lower (text q)) (map lower (text s)).

Definition metachar (c : character) : bool :=
  char_eqb c pct || char_eqb c underscore || char_eqb c backslash.

(** The query, lowercased, holds none of [%], [_] and the backslash. *)
Definition plain (lower : character -> character) (q : string) : bool :=
  forallb (fun c => negb (metachar (lower c))) (text q).

(** The first byte of the query starts a character, as in any UTF-8 text. *)
Definition begins_character (q : string) : bool :=
  match chars q with
  | c :: _ => negb (continuation c)
  | [] => true
  end.

(** ** Views of the store used in the statements *)

Definition pair_rows (id userId : uuid) (s : Store) : list GroupUser :=
  filter (same_pair id userId) (group_users s).

(** What one callback does to the membership table when the shared group
    handle has no changed attribute. *)
Definition sync_rows (ctx : PatchCtx) (authorId : string) (u : User)
    (rows : list GroupUser) : list GroupUser :=
  let id := params_id ctx in
  if existsb (same_pair id (u_id u)) rows then
    if op_is (request_body ctx) "remove"
    then filter (fun r => negb (same_pair id (u_id u) r)) rows
    else rows
  else
    if op_is (request_body ctx) "add"
    then rows ++ [mkGroupUser id (u_id u) authorId (patch_time ctx)]
    else rows.

Definition with_rows (s : Store) (rows : list GroupUser) : Store :=
  mkStore (groups s) (users s) rows (events s).

(** The membership table after the request. *)
Definition patched_rows (ctx : PatchCtx) (emails : list jsval) (s : Store)
    : list GroupUser :=
  match authorId_of ctx with
  | Some authorId =>
      fold_left (fun rows u => sync_rows ctx authorId u rows)
                (filter (email_in emails) (users s)) (group_users s)
  | None => group_users s
  end.

Definition with_body (ctx : PatchCtx) (body : jsval) : PatchCtx :=
  mkPatchCtx (params_id ctx) body (patch_ip ctx) (patch_time ctx) (DESK_UUID ctx).

Definition shown (MAX_AVATAR_DISPLAY : nat) (g : Group) : list Membership :=
  firstn MAX_AVATAR_DISPLAY (filter has_user (groupMemberships g)).

Definition created_not_before (a b : Membership) : Prop :=
  (gu_createdAt (m_row b) <= gu_createdAt (m_row a))%Z.

(** [userWhere] of the handler. *)
Definition userWhere_of (query : option string) : option string :=
  if truthy query
  then match query with
       | Some q => Some ("%" ++ q ++ "%")
       | None => None
       end
  else None.

(** ** Invariants of the store *)

(** At most one membership row for a (group, user) pair. *)
Definition unique_pairs (rows : list GroupUser) : Prop :=
  forall g u, List.length (filter (same_pair g u) rows) <= 1.

(** The rows of the membership table that belong to none of the users. *)
Definition without_users (id : uuid) (us : list User) (rows : list GroupUser)
    : list GroupUser :=
  filter (fun r => negb (existsb (fun u => same_pair id (u_id u) r) us)) rows.

(** Whether the actor may run groups.add_user or groups.remove_user on the
    pair: the user and the group are found and the policy grants "read" on
    the user and "update" on the group. *)
Definition member_change_granted (can : User -> string -> target -> bool)
    (actor : User) (id userId : uuid) (s : Store) : option (GroupRow * User) :=
  match find (fun u => u_id u =? userId) (users s),
        find (fun r => gr_id r =? id) (groups s) with
  | Some u, Some r =>
      if can actor "read" (TUser u) && can actor "update" (TGroup (load_group s r))
      then Some (r, u) else None
  | _, _ => None
  end.

(** The store after a granted groups.add_user that found no membership. *)
Definition added_store (ctx : Ctx) (id userId : uuid) (u : User) (s : Store) : Store :=
  mkStore (groups s) (users s)
    (group_users s ++ [mkGroupUser id userId (u_id (auth_user ctx)) (request_time ctx)])
    (events s ++ [mkEvent "groups.add_user" (Some userId) (u_teamId u) id
                          (u_id (auth_user ctx)) (u_name u) (request_ip ctx)]).

(** The store after a granted groups.remove_user. *)
Definition removed_store (ctx : Ctx) (id userId : uuid) (u : User) (s : Store) : Store :=
  mkStore (groups s) (users s)
    (filter (fun x => negb (same_pair id userId x)) (group_users s))
    (events s ++ [mkEvent "groups.remove_user" (Some userId) (u_teamId u) id
                          (u_id (auth_user ctx)) (u_name u) (request_ip ctx)]).

(** ** Sample data *)

Module Sample.

Definition alice := mkUser "u-alice" "Alice" "a@x.com" "team-1".
Definition jan := mkUser "u-jan" "Jan" "jan@x.com" "team-1".
Definition admin := mkUser "u-admin" "Admin" "admin@x.com" "team-1".

Definition eng := mkGroupRow "g-eng" "Eng" "team-1" "u-admin".
Definition ops := mkGroupRow "g-ops" "Ops" "team-1" "u-admin".

Definition empty_groups : Store :=
  mkStore [eng; ops] [alice; jan; admin] [] [].

Definition with_members : Store :=
  mkStore [eng; ops] [alice; jan; admin]
    [mkGroupUser "g-eng" "u-alice" "u-admin" 10;
     mkGroupUser "g-eng" "u-jan" "u-admin" 20;
     mkGroupUser "g-ops" "u-jan" "u-admin" 30;
     mkGroupUser "g-eng" "u-gone" "u-admin" 40]
    [].

Definition allow_all : User -> string -> target -> bool := fun _ _ _ => true.

Definition ctx : Ctx := mkCtx admin "10.0.0.1" 100 (mkPagination 0 25).

Definition by_name (column : string) (a b : GroupRow) : bool :=
  (gr_name a <=? gr_name b)%string.

End Sample.

Module Provisioning.

Definition entry (email : string) : json := JObj [("email", JStr email)].

(** [{ "Operations": [ { "op": op, "value": entries } ] }] *)
Definition body (op : string) (entries : list json) : jsval :=
  Some (JObj [("Operations", JArr [JObj [("op", JStr op); ("value", JArr entries)]])]).

Definition request (desk : option string) (id : uuid) (b : jsval) : PatchCtx :=
  mkPatchCtx id b "10.0.0.9" 200 desk.

Definition add_a_b : jsval := body "add" [entry "a@x.com"; entry "b@x.com"].

(** [Operations] is an object with a key "0", not an array. *)
Definition operations_object : jsval :=
  Some (JObj [("Operations",
               JObj [("0", JObj [("op", JStr "add");
                                 ("value", JArr [entry "a@x.com"])])])]).

End Provisioning.

(** ** Facts about the tables *)

Lemma find_group_id (id : uuid) (l : list GroupRow) (r : GroupRow) :
  find (fun r => gr_id r =? id) l = Some r -> gr_id r = id.
Proof.
  intros H. apply find_some in H. destruct H as [_ H].
  now apply String.eqb_eq.
Qed.

Lemma find_user_id (id : uuid) (l : list User) (u : User) :
  find (fun u => u_id u =? id) l = Some u -> u_id u = id /\ In u l.
Proof.
  intros H. apply find_some in H. destruct H as [Hin H].
  split; [now apply String.eqb_eq | exact Hin].
Qed.

Lemma filter_none {A} (f : A -> bool) (l : list A) :
  existsb f l = false -> filter (fun x => negb (f x)) l = l.
Proof.
  induction l as [|x l IH]; simpl; intros H; [reflexivity|].
  apply orb_false_iff in H. destruct H as [Hx Hl].
  rewrite Hx. simpl. now rewrite IH.
Qed.

Lemma filter_absent {A} (f : A -> bool) (l : list A) :
  existsb f l = false -> filter f l = [].
Proof.
  induction l as [|x l IH]; simpl; intros H; [reflexivity|].
  apply orb_false_iff in H. destruct H as [Hx Hl].
  rewrite Hx. now apply IH.
Qed.

Lemma find_absent {A} (f : A -> bool) (l : list A) :
  existsb f l = false -> find f l = None.
Proof.
  induction l as [|x l IH]; simpl; intros H; [reflexivity|].
  apply orb_false_iff in H. destruct H as [Hx Hl].
  rewrite Hx. now apply IH.
Qed.

Lemma find_app_absent {A} (f : A -> bool) (l : list A) (x : A) :
  existsb f l = false -> f x = true -> find f (l ++ [x]) = Some x.
Proof.
  induction l as [|y l IH]; simpl; intros H Hx.
  - now rewrite Hx.
  - apply orb_false_iff in H. destruct H as [Hy Hl].
    rewrite Hy. now apply IH.
Qed.

Lemma find_removed {A} (f : A -> bool) (l : list A) :
  find f (filter (fun x => negb (f x)) l) = None.
Proof.
  induction l as [|x l IH]; simpl; [reflexivity|].
  destruct (f x) eqn:E; simpl; [exact IH|].
  now rewrite E.
Qed.

Lemma same_pair_refl (g u : uuid) (c : uuid) (t : Z) :
  same_pair g u (mkGroupUser g u c t) = true.
Proof.
  unfold same_pair; simpl. now rewrite !String.eqb_refl.
Qed.

(** ** groups.update *)

Section UpdateFacts.

Variable can : User -> string -> target -> bool.
Variables (ctx : Ctx) (s : Store) (r : GroupRow) (id name : string).

Let actor := auth_user ctx.

Hypothesis Hfound : find (fun r => gr_id r =? id) (groups s) = Some r.
Hypothesis Hallowed : can actor "update" (TGroup (load_group s r)) = true.

Lemma update_same_name :
  gr_name r = name ->
  groups_update can ctx (mkGroupsUpdateReq id name) s = (Ok (load_group s r), s).
Proof.
  intros Hname.
  unfold groups_update, bind, Group_findByPk, gets, authorize; simpl.
  rewrite Hfound; simpl. fold actor. rewrite Hallowed; simpl.
  unfold set_name, ret; simpl. rewrite Hname, String.eqb_refl.
  reflexivity.
Qed.

Lemma update_new_name :
  gr_name r <> name ->
  let row := mkGroupRow (gr_id r) name (gr_teamId r) (gr_createdById r) in
  groups_update can ctx (mkGroupsUpdateReq id name) s =
    (Ok (mkGroup row (memberships_of s (gr_id r)) false),
     mkStore (map (fun x => if gr_id x =? gr_id r then row else x) (groups s))
             (users s) (group_users s)
             (events s ++ [mkEvent "groups.update" None (u_teamId actor)
                                   (gr_id r) (u_id actor) name (request_ip ctx)])).
Proof.
  intros Hname row.
  unfold groups_update, bind, Group_findByPk, gets, authorize; simpl.
  rewrite Hfound; simpl. fold actor. rewrite Hallowed; simpl.
  unfold set_name, ret; simpl.
  apply String.eqb_neq in Hname. rewrite Hname. reflexivity.
Qed.

End UpdateFacts.

Lemma find_map_updated (id : uuid) (row : GroupRow) (l : list GroupRow) (r : GroupRow) :
  gr_id row = id ->
  find (fun x => gr_id x =? id) l = Some r ->
  find (fun x => gr_id x =? id)
       (map (fun x => if gr_id x =? id then row else x) l) = Some row.
Proof.
  intros Hrow. induction l as [|x l IH]; simpl; [discriminate|].
  destruct (gr_id x =? id) eqn:E; simpl.
  - intros _. now rewrite Hrow, String.eqb_refl.
  - rewrite E. exact IH.
Qed.

(** C3: groups.update with the persisted name writes nothing and emits no
    event; with another name it writes that name to the row and emits
    exactly one groups.update event whose data.name is the new name. *)
Theorem groups_update_change_detection
    (can : User -> string -> target -> bool) (ctx : Ctx) (s : Store)
    (r : GroupRow) (id name : string) :
  find (fun r => gr_id r =? id) (groups s) = Some r ->
  can (auth_user ctx) "update" (TGroup (load_group s r)) = true ->
  (gr_name r = name ->
     snd (groups_update can ctx (mkGroupsUpdateReq id name) s) = s /\
     exists g, fst (groups_update can ctx (mkGroupsUpdateReq id name) s) = Ok g) /\
  (gr_name r <> name ->
     exists g s' e,
       groups_update can ctx (mkGroupsUpdateReq id name) s = (Ok g, s') /\
       g_name g = name /\
       option_map gr_name (find (fun r => gr_id r =? id) (groups s')) = Some name /\
       group_users s' = group_users s /\
       events s' = (events s ++ [e])%list /\
       ev_name e = "groups.update" /\ ev_data_name e = name /\ ev_modelId e = id).
Proof.
  intros Hfound Hallowed. split; intros Hname.
  - rewrite (update_same_name can ctx s r id name Hfound Hallowed Hname).
    split; [reflexivity | eexists; reflexivity].
  - pose proof (find_group_id _ _ _ Hfound) as Hid.
    do 3 eexists. split.
    + exact (update_new_name can ctx s r id name Hfound Hallowed Hname).
    + simpl. repeat split; try reflexivity; try exact Hid.
      rewrite Hid.
      erewrite find_map_updated; [reflexivity | reflexivity | exact Hfound].
Qed.

Lemma groups_update_change_detection_witness :
  exists g s' e,
    groups_update Sample.allow_all Sample.ctx (mkGroupsUpdateReq "g-eng" "Engineering")
      Sample.empty_groups = (Ok g, s') /\
    g_name g = "Engineering" /\
    option_map gr_name (find (fun r => gr_id r =? "g-eng") (groups s')) = Some "Engineering" /\
    group_users s' = group_users Sample.empty_groups /\
    events s' = (events Sample.empty_groups ++ [e])%list /\
    ev_name e = "groups.update" /\ ev_data_name e = "Engineering" /\ ev_modelId e = "g-eng".
Proof.
  apply (groups_update_change_detection Sample.allow_all Sample.ctx Sample.empty_groups
           Sample.eng "g-eng" "Engineering").
  - reflexivity.
  - reflexivity.
  - discriminate.
Defined.

(** ** groups.delete and groups.info *)

Lemma groups_info_absent (can : User -> string -> target -> bool) (ctx : Ctx)
    (id : uuid) (s : Store) :
  find (fun r => gr_id r =? id) (groups s) = None ->
  groups_info can ctx id s = (Err AuthorizationError, s).
Proof.
  intros H. unfold groups_info, bind, Group_findByPk, gets; simpl.
  now rewrite H.
Qed.

Lemma groups_delete_run (can : User -> string -> target -> bool) (ctx : Ctx)
    (id : uuid) (s : Store) (r : GroupRow) :
  find (fun r => gr_id r =? id) (groups s) = Some r ->
  can (auth_user ctx) "delete" (TGroup (load_group s r)) = true ->
  groups_delete can ctx id s =
    (Ok true,
     mkStore (filter (fun x => negb (gr_id x =? id)) (groups s))
             (users s)
             (filter (fun x => negb (gu_groupId x =? id)) (group_users s))
             (events s ++ [mkEvent "groups.delete" None (gr_teamId r) id
                                   (u_id (auth_user ctx)) (gr_name r)
                                   (request_ip ctx)])).
Proof.
  intros Hfound Hallowed.
  pose proof (find_group_id _ _ _ Hfound) as Hid.
  unfold groups_delete, bind, Group_findByPk, gets, authorize; simpl.
  rewrite Hfound; simpl. rewrite Hallowed; simpl.
  unfold g_id, g_teamId, g_name; simpl. now rewrite Hid.
Qed.

(** C6, as the code has it: groups.delete removes the row of the group and
    every membership row of that group, and emits exactly one groups.delete
    event whose data.name is the name the group had; a later groups.info on
    the same id fails, the absent group being refused by the authorization
    check (Forbidden), not by the fetch. *)
Theorem groups_delete_then_info
    (can : User -> string -> target -> bool) (ctx : Ctx) (id : uuid)
    (s : Store) (r : GroupRow) :
  find (fun r => gr_id r =? id) (groups s) = Some r ->
  can (auth_user ctx) "delete" (TGroup (load_group s r)) = true ->
  exists s' e,
    groups_delete can ctx id s = (Ok true, s') /\
    find (fun r => gr_id r =? id) (groups s') = None /\
    (forall x, In x (groups s') <-> In x (groups s) /\ gr_id x <> id) /\
    (forall x, In x (group_users s') <-> In x (group_users s) /\ gu_groupId x <> id) /\
    events s' = (events s ++ [e])%list /\
    ev_name e = "groups.delete" /\ ev_data_name e = gr_name r /\ ev_modelId e = id /\
    forall ctx', groups_info can ctx' id s' = (Err AuthorizationError, s').
Proof.
  intros Hfound Hallowed.
  do 2 eexists. split; [exact (groups_delete_run can ctx id s r Hfound Hallowed)|].
  simpl. split; [apply find_removed with (f := fun x => gr_id x =? id)|].
  split.
  { intros x. rewrite filter_In, negb_true_iff, String.eqb_neq. reflexivity. }
  split.
  { intros x. rewrite filter_In, negb_true_iff, String.eqb_neq. reflexivity. }
  repeat split.
  intros ctx'. apply groups_info_absent. simpl.
  apply find_removed with (f := fun x => gr_id x =? id).
Qed.

Lemma groups_delete_then_info_witness :
  exists s' e,
    groups_delete Sample.allow_all Sample.ctx "g-eng" Sample.with_members = (Ok true, s') /\
    find (fun r => gr_id r =? "g-eng") (groups s') = None /\
    (forall x, In x (groups s') <-> In x (groups Sample.with_members) /\ gr_id x <> "g-eng") /\
    (forall x, In x (group_users s') <->
               In x (group_users Sample.with_members) /\ gu_groupId x <> "g-eng") /\
    events s' = (events Sample.with_members ++ [e])%list /\
    ev_name e = "groups.delete" /\ ev_data_name e = "Eng" /\ ev_modelId e = "g-eng" /\
    forall ctx', groups_info Sample.allow_all ctx' "g-eng" s' = (Err AuthorizationError, s').
Proof.
  apply (groups_delete_then_info Sample.allow_all Sample.ctx "g-eng"
           Sample.with_members Sample.eng).
  - reflexivity.
  - reflexivity.
Defined.

(** C6, as the claim has it, fails: after a successful groups.delete the
    groups.info call on the same id is refused with the authorization error,
    not with NotFound. *)
Lemma groups_info_after_delete_not_NotFound :
  let s' := snd (groups_delete Sample.allow_all Sample.ctx "g-eng" Sample.with_members) in
  fst (groups_delete Sample.allow_all Sample.ctx "g-eng" Sample.with_members) = Ok true /\
  fst (groups_info Sample.allow_all Sample.ctx "g-eng" s') = Err AuthorizationError /\
  fst (groups_info Sample.allow_all Sample.ctx "g-eng" s') <> Err NotFoundError.
Proof.
  vm_compute. repeat split; discriminate.
Qed.

(** ** groups.remove_user *)

(** C4: groups.remove_user on a pair without membership leaves the tables
    of groups and memberships as they were, still emits one
    groups.remove_user event, and answers with the group fetched after the
    removal. *)
Theorem groups_remove_user_absent
    (can : User -> string -> target -> bool) (ctx : Ctx) (id userId : uuid)
    (s : Store) (r : GroupRow) (u : User) :
  find (fun r => gr_id r =? id) (groups s) = Some r ->
  can (auth_user ctx) "update" (TGroup (load_group s r)) = true ->
  find (fun u => u_id u =? userId) (users s) = Some u ->
  can (auth_user ctx) "read" (TUser u) = true ->
  existsb (same_pair id userId) (group_users s) = false ->
  exists g s',
    groups_remove_user can ctx (mkGroupsUserReq id userId) s = (Ok g, s') /\
    group_users s' = group_users s /\
    groups s' = groups s /\
    users s' = users s /\
    events s' = (events s ++ [mkEvent "groups.remove_user" (Some userId) (u_teamId u)
                                      id (u_id (auth_user ctx)) (u_name u)
                                      (request_ip ctx)])%list /\
    Group_findByPk id s' = (Ok (Some g), s').
Proof.
  intros Hg Hcg Hu Hcu Habsent.
  pose proof (find_group_id _ _ _ Hg) as Hid.
  destruct (find_user_id _ _ _ Hu) as [Huid _].
  unfold groups_remove_user, bind, Group_findByPk, Group_findByPk_reject,
    User_findByPk, gets, authorize; simpl.
  rewrite Hg; simpl. rewrite Hcg; simpl. rewrite Hu; simpl. rewrite Hcu; simpl.
  unfold bind, Group_findByPk, gets; simpl. rewrite Hg; simpl.
  unfold g_id; simpl. rewrite Hid, Huid.
  rewrite (filter_none _ _ Habsent).
  do 2 eexists. split; [reflexivity|]. simpl.
  rewrite Hg. simpl. repeat split.
Qed.

Lemma groups_remove_user_absent_witness :
  exists g s',
    groups_remove_user Sample.allow_all Sample.ctx (mkGroupsUserReq "g-ops" "u-alice")
      Sample.with_members = (Ok g, s') /\
    group_users s' = group_users Sample.with_members /\
    groups s' = groups Sample.with_members /\
    users s' = users Sample.with_members /\
    events s' = (events Sample.with_members ++
                   [mkEvent "groups.remove_user" (Some "u-alice") "team-1" "g-ops"
                            "u-admin" "Alice" "10.0.0.1"])%list /\
    Group_findByPk "g-ops" s' = (Ok (Some g), s').
Proof.
  apply (groups_remove_user_absent Sample.allow_all Sample.ctx "g-ops" "u-alice"
           Sample.with_members Sample.ops Sample.alice); reflexivity.
Defined.

(** ** groups.add_user *)

Lemma filter_app_one {A} (f : A -> bool) (l : list A) (x : A) :
  existsb f l = false -> f x = true -> filter f (l ++ [x]) = [x].
Proof.
  intros Hl Hx. rewrite filter_app, (filter_absent _ _ Hl). simpl.
  now rewrite Hx.
Qed.

(** A handler that finds the membership writes nothing. *)
Lemma groups_add_user_existing
    (can : User -> string -> target -> bool) (ctx : Ctx) (id userId : uuid)
    (s : Store) :
  existsb (same_pair id userId) (group_users s) = true ->
  snd (groups_add_user can ctx (mkGroupsUserReq id userId) s) = s.
Proof.
  intros Hex.
  unfold groups_add_user, bind, User_findByPk, Group_findByPk, GroupUser_findOne,
    gets, authorize; simpl.
  destruct (find (fun u => u_id u =? userId) (users s)) as [u|]; simpl; [|reflexivity].
  destruct (can (auth_user ctx) "read" (TUser u)); simpl; [|reflexivity].
  destruct (find (fun r => gr_id r =? id) (groups s)) as [r|]; simpl; [|reflexivity].
  destruct (can (auth_user ctx) "update" (TGroup (load_group s r))); simpl; [|reflexivity].
  destruct (find (fun r0 => (gu_groupId r0 =? id) && (gu_userId r0 =? userId))
                 (group_users s)) as [m|] eqn:E; simpl; [reflexivity|].
  exfalso.
  apply existsb_exists in Hex. destruct Hex as [x [Hin Hx]].
  exact (eq_true_false_abs _ Hx (find_none _ _ E x Hin)).
Qed.

(** C2: from a state without membership for the pair, groups.add_user
    creates exactly one membership row and emits exactly one groups.add_user
    event, and answers with the user, the new membership and the re-fetched
    group; a second call with the same pair leaves the store as it is, so
    that the pair still has that one row and the log that one event, and,
    the actor being allowed as before, answers with the same user, the
    existing membership and the same group. *)
Theorem groups_add_user_idempotent
    (can : User -> string -> target -> bool) (ctx : Ctx) (id userId : uuid)
    (s : Store) (r : GroupRow) (u : User) :
  find (fun u => u_id u =? userId) (users s) = Some u ->
  can (auth_user ctx) "read" (TUser u) = true ->
  find (fun r => gr_id r =? id) (groups s) = Some r ->
  can (auth_user ctx) "update" (TGroup (load_group s r)) = true ->
  existsb (same_pair id userId) (group_users s) = false ->
  let row := mkGroupUser id userId (u_id (auth_user ctx)) (request_time ctx) in
  let s1 := mkStore (groups s) (users s) (group_users s ++ [row])
              (events s ++ [mkEvent "groups.add_user" (Some userId) (u_teamId u) id
                                    (u_id (auth_user ctx)) (u_name u)
                                    (request_ip ctx)]) in
  let body := mkAddUserBody [u] [mkMembership row (Some u)] [load_group s1 r] in
  groups_add_user can ctx (mkGroupsUserReq id userId) s = (Ok body, s1) /\
  pair_rows id userId s = [] /\
  pair_rows id userId s1 = [row] /\
  In (mkMembership row (Some u)) (groupMemberships (load_group s1 r)) /\
  (forall ctx', snd (groups_add_user can ctx' (mkGroupsUserReq id userId) s1) = s1) /\
  (forall ctx',
     can (auth_user ctx') "read" (TUser u) = true ->
     can (auth_user ctx') "update" (TGroup (load_group s1 r)) = true ->
     groups_add_user can ctx' (mkGroupsUserReq id userId) s1 = (Ok body, s1)).
Proof.
  intros Hu Hcu Hg Hcg Habsent row s1 body.
  pose proof (find_group_id _ _ _ Hg) as Hid.
  destruct (find_user_id _ _ _ Hu) as [Huid _].
  set (rows := (group_users s ++ [row])%list).
  set (mid := mkStore (groups s) (users s) rows (events s)).
  assert (Hrow : same_pair id userId row = true) by apply same_pair_refl.
  assert (Hfind : find (same_pair id userId) rows = Some row)
    by (apply find_app_absent; assumption).
  assert (Hjoin : forall st, users st = users s ->
                             join_user st row = mkMembership row (Some u)).
  { intros st Hst. unfold join_user. rewrite Hst. simpl. now rewrite Hu. }
  assert (Hrun : groups_add_user can ctx (mkGroupsUserReq id userId) s = (Ok body, s1)).
  { unfold groups_add_user, bind, User_findByPk, Group_findByPk, GroupUser_findOne,
      GroupUser_findOne_reject, Group_findByPk_reject, gets, authorize; simpl.
    rewrite Hu; simpl. rewrite Hcu; simpl. rewrite Hg; simpl. rewrite Hcg; simpl.
    fold (same_pair id userId).
    rewrite (find_absent _ _ Habsent); simpl.
    unfold bind, GroupUser_findOne, Group_findByPk, gets; simpl.
    unfold g_id; simpl. rewrite Hid, Huid.
    fold row. fold rows. fold (same_pair id userId).
    rewrite Habsent. rewrite Hfind; simpl. rewrite Hg; simpl.
    unfold ret, g_id; simpl. rewrite Hid.
    fold mid. rewrite (Hjoin mid eq_refl). reflexivity. }
  split; [exact Hrun|].
  split; [now apply filter_absent|].
  split; [apply filter_app_one; assumption|].
  split.
  { unfold load_group, memberships_of; simpl.
    rewrite <- (Hjoin s1 eq_refl). apply in_map. apply filter_In. split.
    - apply in_or_app. right. now left.
    - rewrite Hid. simpl. apply String.eqb_refl. }
  assert (Hex : existsb (same_pair id userId) (group_users s1) = true).
  { apply existsb_exists. exists row. split; [|exact Hrow].
    simpl. apply in_or_app. right. now left. }
  split.
  - intros ctx'. now apply groups_add_user_existing.
  - intros ctx' Hcu' Hcg'.
    unfold groups_add_user, bind, User_findByPk, Group_findByPk, GroupUser_findOne,
      gets, authorize; simpl.
    rewrite Hu; simpl. rewrite Hcu'; simpl. rewrite Hg; simpl.
    change (load_group _ r) with (load_group s1 r).
    rewrite Hcg'; simpl.
    fold (same_pair id userId). fold rows. rewrite Hfind; simpl.
    fold s1. rewrite (Hjoin s1 eq_refl). reflexivity.
Qed.

Lemma groups_add_user_idempotent_witness :
  let row := mkGroupUser "g-ops" "u-alice" "u-admin" 100 in
  let s1 := mkStore (groups Sample.with_members) (users Sample.with_members)
              (group_users Sample.with_members ++ [row])
              (events Sample.with_members ++
                 [mkEvent "groups.add_user" (Some "u-alice") "team-1" "g-ops"
                          "u-admin" "Alice" "10.0.0.1"]) in
  let body := mkAddUserBody [Sample.alice] [mkMembership row (Some Sample.alice)]
                [load_group s1 Sample.ops] in
  groups_add_user Sample.allow_all Sample.ctx (mkGroupsUserReq "g-ops" "u-alice")
    Sample.with_members = (Ok body, s1) /\
  pair_rows "g-ops" "u-alice" Sample.with_members = [] /\
  pair_rows "g-ops" "u-alice" s1 = [row] /\
  In (mkMembership row (Some Sample.alice)) (groupMemberships (load_group s1 Sample.ops)) /\
  (forall ctx', snd (groups_add_user Sample.allow_all ctx'
                       (mkGroupsUserReq "g-ops" "u-alice") s1) = s1) /\
  (forall ctx',
     Sample.allow_all (auth_user ctx') "read" (TUser Sample.alice) = true ->
     Sample.allow_all (auth_user ctx') "update" (TGroup (load_group s1 Sample.ops)) = true ->
     groups_add_user Sample.allow_all ctx' (mkGroupsUserReq "g-ops" "u-alice") s1 =
       (Ok body, s1)).
Proof.
  apply (groups_add_user_idempotent Sample.allow_all Sample.ctx "g-ops" "u-alice"
           Sample.with_members Sample.ops Sample.alice); reflexivity.
Defined.

(** ** The provisioning endpoint *)

Lemma existsb_find {A} (f : A -> bool) (l : list A) :
  existsb f l = is_some (find f l).
Proof.
  induction l as [|x l IH]; simpl; [reflexivity|].
  destruct (f x); simpl; [reflexivity | exact IH].
Qed.

Lemma existsb_filter {A} (f : A -> bool) (l : list A) :
  existsb f l = false <-> filter f l = [].
Proof.
  induction l as [|x l IH]; simpl; [tauto|].
  destruct (f x); simpl; [split; discriminate | exact IH].
Qed.

Lemma op_add_not_remove (body : jsval) :
  op_is body "add" = true -> op_is body "remove" = false.
Proof.
  unfold op_is.
  destruct (optional (operation0 body) (get_prop "op")) as [[| | |op| |]|];
    try discriminate.
  intros H. apply String.eqb_eq in H. now subst op.
Qed.

Lemma with_rows_same (s : Store) : with_rows s (group_users s) = s.
Proof. now destruct s. Qed.

(** The guard [group.changed()] of both branches is never taken: [$add] and
    [$remove] write through rows and leave the attributes of the handle
    alone, so the callback saves nothing, emits nothing and keeps the shared
    variables. *)
Lemma sync_user_run (ctx : PatchCtx) (authorId : string) (u : User)
    (g : Group) (gu : option Membership) (s : Store) :
  g_changed g = false ->
  g_id g = params_id ctx ->
  sync_user ctx authorId u (g, gu) s =
    (Ok (g, gu), with_rows s (sync_rows ctx authorId u (group_users s))).
Proof.
  intros Hch Hid.
  unfold sync_user, sync_rows, bind, GroupUser_findOne, gets; simpl.
  fold (same_pair (params_id ctx) (u_id u)).
  rewrite existsb_find.
  destruct (find (same_pair (params_id ctx) (u_id u)) (group_users s)) as [m|] eqn:E;
    simpl.
  - destruct (op_is (request_body ctx) "remove"); simpl.
    + unfold bind, Group_remove_user, modify, changed; simpl.
      rewrite Hch, Hid. reflexivity.
    + unfold ret. now rewrite with_rows_same.
  - destruct (op_is (request_body ctx) "add") eqn:Eadd; simpl.
    + unfold bind, Group_add_user, modify, changed; simpl.
      rewrite Hch, Hid; simpl.
      rewrite existsb_find, E; simpl.
      rewrite andb_false_r. reflexivity.
    + rewrite andb_false_r. unfold ret. now rewrite with_rows_same.
Qed.

Lemma sync_users_run (ctx : PatchCtx) (authorId : string) (us : list User)
    (g : Group) (gu : option Membership) (s : Store) :
  g_changed g = false ->
  g_id g = params_id ctx ->
  sync_users ctx authorId us (g, gu) s =
    (Ok (g, gu),
     with_rows s (fold_left (fun rows u => sync_rows ctx authorId u rows) us
                            (group_users s))).
Proof.
  intros Hch Hid. revert s.
  induction us as [|u us IH]; intros s; cbn [sync_users fold_left].
  - unfold ret. now rewrite with_rows_same.
  - unfold bind. rewrite sync_user_run by assumption.
    rewrite IH. reflexivity.
Qed.

Lemma groups_patch_run (ctx : PatchCtx) (emails : list jsval) (s : Store)
    (r : GroupRow) :
  arrayEmailAddresses (request_body ctx) = Some emails ->
  find (fun r => gr_id r =? params_id ctx) (groups s) = Some r ->
  forallb bindable emails = true ->
  groups_patch ctx s =
    (Ok (mkPatchBody true (load_group s r)
           (option_map (join_user s)
              (find (fun x => gu_groupId x =? params_id ctx) (group_users s)))
           (filter (email_in emails) (users s))),
     with_rows s (patched_rows ctx emails s)).
Proof.
  intros Hparse Hfound Hbind.
  pose proof (find_group_id _ _ _ Hfound) as Hid.
  unfold groups_patch. rewrite Hparse.
  unfold bind at 1. unfold Group_findOne_reject, bind at 1.
  unfold Group_findByPk, gets. rewrite Hfound; simpl.
  unfold bind at 1. unfold GroupUser_findOne_group, gets.
  unfold bind at 1. unfold User_findAll, gets. rewrite Hbind.
  unfold patched_rows.
  destruct (authorId_of ctx) as [a|].
  - unfold bind. rewrite sync_users_run by (reflexivity || exact Hid).
    reflexivity.
  - unfold bind, ret. now rewrite with_rows_same.
Qed.

Lemma groups_patch_not_found (ctx : PatchCtx) (emails : list jsval) (s : Store) :
  arrayEmailAddresses (request_body ctx) = Some emails ->
  find (fun r => gr_id r =? params_id ctx) (groups s) = None ->
  groups_patch ctx s =
    (Err (if uuid_syntax (params_id ctx) then NotFoundError else DatabaseError), s).
Proof.
  intros Hparse Hnone.
  unfold groups_patch. rewrite Hparse.
  unfold bind at 1. unfold Group_findOne_reject, bind at 1.
  unfold Group_findByPk, gets. rewrite Hnone.
  now destruct (uuid_syntax (params_id ctx)).
Qed.

Lemma groups_patch_unbindable (ctx : PatchCtx) (emails : list jsval) (s : Store)
    (r : GroupRow) :
  arrayEmailAddresses (request_body ctx) = Some emails ->
  find (fun r => gr_id r =? params_id ctx) (groups s) = Some r ->
  forallb bindable emails = false ->
  groups_patch ctx s = (Err DatabaseError, s).
Proof.
  intros Hparse Hfound Hbind.
  unfold groups_patch. rewrite Hparse.
  unfold bind at 1. unfold Group_findOne_reject, bind at 1.
  unfold Group_findByPk, gets. rewrite Hfound; simpl.
  unfold bind at 1. unfold GroupUser_findOne_group, gets.
  unfold bind at 1. unfold User_findAll. now rewrite Hbind.
Qed.

Lemma groups_patch_type_error (ctx : PatchCtx) (s : Store) :
  arrayEmailAddresses (request_body ctx) = None ->
  groups_patch ctx s = (Err TypeError, s).
Proof.
  intros Hparse. unfold groups_patch. now rewrite Hparse.
Qed.

(** A request either fails, having written nothing, or runs the sync. *)
Lemma groups_patch_cases (ctx : PatchCtx) (s : Store) :
  (exists e, groups_patch ctx s = (Err e, s)) \/
  (exists emails r,
     arrayEmailAddresses (request_body ctx) = Some emails /\
     find (fun r => gr_id r =? params_id ctx) (groups s) = Some r /\
     forallb bindable emails = true /\
     groups_patch ctx s =
       (Ok (mkPatchBody true (load_group s r)
              (option_map (join_user s)
                 (find (fun x => gu_groupId x =? params_id ctx) (group_users s)))
              (filter (email_in emails) (users s))),
        with_rows s (patched_rows ctx emails s))).
Proof.
  destruct (arrayEmailAddresses (request_body ctx)) as [emails|] eqn:Hparse.
  - destruct (find (fun r => gr_id r =? params_id ctx) (groups s)) as [r|] eqn:Hfound.
    + destruct (forallb bindable emails) eqn:Hbind.
      * right. exists emails, r. repeat split; try assumption.
        now apply groups_patch_run.
      * left. eexists. exact (groups_patch_unbindable ctx emails s r Hparse Hfound Hbind).
    + left. eexists. exact (groups_patch_not_found ctx emails s Hparse Hfound).
  - left. eexists. exact (groups_patch_type_error ctx s Hparse).
Qed.

(** X12: whatever the request, the endpoint writes no audit event and no
    group or user row: the event of either branch sits behind
    [group.changed()]. *)
Lemma groups_patch_emits_nothing (ctx : PatchCtx) (s : Store) :
  events (snd (groups_patch ctx s)) = events s /\
  groups (snd (groups_patch ctx s)) = groups s /\
  users (snd (groups_patch ctx s)) = users s.
Proof.
  destruct (groups_patch_cases ctx s) as [[e Hr]|[emails [r [_ [_ [_ Hr]]]]]];
    rewrite Hr; now simpl.
Qed.

Lemma strings_bindable (emails : list jsval) :
  forallb is_string emails = true -> forallb bindable emails = true.
Proof.
  induction emails as [|e emails IH]; simpl; [reflexivity|].
  intros H. apply andb_true_iff in H. destruct H as [He Hrest].
  rewrite (IH Hrest). destruct e as [[| | | | |]|]; try discriminate. reflexivity.
Qed.

Lemma email_entries_map (items : list json) :
  forallb is_email_entry items = true ->
  exists es, map_email items = Some es /\ forallb is_string es = true.
Proof.
  induction items as [|x items IH]; simpl; intros H.
  - now exists [].
  - apply andb_true_iff in H. destruct H as [Hx Hrest].
    destruct (IH Hrest) as [es [Hes Hstr]]. rewrite Hes.
    destruct x as [| | | | |fields]; try discriminate. simpl in *.
    destruct (lookup "email" fields) as [[| | |e| |]|]; try discriminate.
    eexists. split; [reflexivity|]. simpl. exact Hstr.
Qed.

Lemma well_formed_parses (body : jsval) :
  well_formed_body body = true ->
  exists emails,
    arrayEmailAddresses body = Some emails /\ forallb is_string emails = true.
Proof.
  unfold well_formed_body, arrayEmailAddresses, arrayUsers, operation0.
  destruct body as [[| | | | |fields]|]; try discriminate. simpl.
  destruct (lookup "Operations" fields) as [[| | | |ops|]|]; try discriminate.
  destruct ops as [|[| | | | |operation] ops]; try discriminate. simpl.
  destruct (lookup "op" operation) as [[| | |op| |]|]; try discriminate.
  destruct (lookup "value" operation) as [[| | | |items|]|]; try discriminate.
  intros H. apply andb_true_iff in H. destruct H as [_ H].
  now apply email_entries_map.
Qed.

(** C10: with DESK_UUID unset, a request with a well-formed body leaves the
    store as it is (no membership created or removed, no event), and when
    the group exists the answer is ok: true with the fetched group, the
    first membership found for the group and the resolved users. *)
Theorem groups_patch_without_DESK_UUID (ctx : PatchCtx) (s : Store) :
  DESK_UUID ctx = None ->
  well_formed_body (request_body ctx) = true ->
  snd (groups_patch ctx s) = s /\
  forall r,
    find (fun r => gr_id r =? params_id ctx) (groups s) = Some r ->
    exists emails,
      arrayEmailAddresses (request_body ctx) = Some emails /\
      fst (groups_patch ctx s) =
        Ok (mkPatchBody true (load_group s r)
              (option_map (join_user s)
                 (find (fun x => gu_groupId x =? params_id ctx) (group_users s)))
              (filter (email_in emails) (users s))).
Proof.
  intros Henv Hwf.
  destruct (well_formed_parses _ Hwf) as [emails [Hparse Hstrings]].
  pose proof (strings_bindable _ Hstrings) as Hbind.
  assert (Hrows : patched_rows ctx emails s = group_users s).
  { unfold patched_rows, authorId_of. now rewrite Henv. }
  split.
  - destruct (find (fun r => gr_id r =? params_id ctx) (groups s)) as [r|] eqn:Hfound.
    + rewrite (groups_patch_run ctx emails s r Hparse Hfound Hbind); simpl.
      rewrite Hrows. apply with_rows_same.
    + now rewrite (groups_patch_not_found ctx emails s Hparse Hfound).
  - intros r Hfound. exists emails. split; [exact Hparse|].
    now rewrite (groups_patch_run ctx emails s r Hparse Hfound Hbind).
Qed.

Lemma groups_patch_without_DESK_UUID_witness :
  snd (groups_patch (Provisioning.request None "g-ops" Provisioning.add_a_b)
         Sample.with_members) = Sample.with_members /\
  forall r,
    find (fun r => gr_id r =? "g-ops") (groups Sample.with_members) = Some r ->
    exists emails,
      arrayEmailAddresses Provisioning.add_a_b = Some emails /\
      fst (groups_patch (Provisioning.request None "g-ops" Provisioning.add_a_b)
             Sample.with_members) =
        Ok (mkPatchBody true (load_group Sample.with_members r)
              (option_map (join_user Sample.with_members)
                 (find (fun x => gu_groupId x =? "g-ops")
                       (group_users Sample.with_members)))
              (filter (email_in emails) (users Sample.with_members))).
Proof.
  apply (groups_patch_without_DESK_UUID
           (Provisioning.request None "g-ops" Provisioning.add_a_b) Sample.with_members).
  - reflexivity.
  - reflexivity.
Defined.

(** C7, as the code has it: on the eight validated routes a body the
    schema refuses is answered with a validation error and the store is
    untouched.  The provisioning endpoint applies no schema: it fails with a
    TypeError exactly when Operations[0].value is missing, null or no array,
    or holds a null element; whenever it fails, for this or another reason,
    it has written nothing; and a body from which string emails can be read
    is processed on an existing group, of the documented shape or not. *)
Theorem malformed_input_fails_before_persistence
    (can : User -> string -> target -> bool)
    (can_team : User -> string -> uuid -> bool) (MAX_AVATAR_DISPLAY : nat)
    (group_column_leb : string -> GroupRow -> GroupRow -> bool)
    (db_lower : character -> character) (T : Schemas) (generated_id : uuid) :
  (forall r ctx body s,
     accepts T r body = false ->
     serve can can_team MAX_AVATAR_DISPLAY group_column_leb db_lower T generated_id
           r ctx body s = (Some ValidationError, s)) /\
  (forall ctx s,
     arrayEmailAddresses (request_body ctx) = None ->
     groups_patch ctx s = (Err TypeError, s)) /\
  (forall ctx s e,
     fst (groups_patch ctx s) = Err e ->
     snd (groups_patch ctx s) = s /\
     (e = TypeError <-> arrayEmailAddresses (request_body ctx) = None)) /\
  (forall ctx s emails r,
     arrayEmailAddresses (request_body ctx) = Some emails ->
     forallb is_string emails = true ->
     find (fun r => gr_id r =? params_id ctx) (groups s) = Some r ->
     exists b, fst (groups_patch ctx s) = Ok b).
Proof.
  split; [|split; [|split]].
  - intros r ctx body s H.
    destruct r; unfold serve, validate, accepts in *; simpl in *.
    + destruct (GroupsListSchema T body); [discriminate | reflexivity].
    + destruct (GroupsInfoSchema T body); [discriminate | reflexivity].
    + destruct (GroupsCreateSchema T body); [discriminate | reflexivity].
    + destruct (GroupsUpdateSchema T body); [discriminate | reflexivity].
    + destruct (GroupsDeleteSchema T body); [discriminate | reflexivity].
    + destruct (GroupsMembershipsSchema T body); [discriminate | reflexivity].
    + destruct (GroupsAddUserSchema T body); [discriminate | reflexivity].
    + destruct (GroupsRemoveUserSchema T body); [discriminate | reflexivity].
  - intros ctx s. apply groups_patch_type_error.
  - intros ctx s e Hrun.
    destruct (arrayEmailAddresses (request_body ctx)) as [emails|] eqn:Hparse.
    + destruct (find (fun r => gr_id r =? params_id ctx) (groups s)) as [r|] eqn:Hfound.
      * destruct (forallb bindable emails) eqn:Hbind.
        -- rewrite (groups_patch_run ctx emails s r Hparse Hfound Hbind) in Hrun.
           discriminate.
        -- rewrite (groups_patch_unbindable ctx emails s r Hparse Hfound Hbind) in *.
           simpl in *. injection Hrun as <-. split; [reflexivity|].
           split; discriminate.
      * rewrite (groups_patch_not_found ctx emails s Hparse Hfound) in *.
        simpl in *. injection Hrun as <-. split; [reflexivity|].
        destruct (uuid_syntax (params_id ctx)); split; discriminate.
    + rewrite (groups_patch_type_error ctx s Hparse) in *. simpl in *.
      injection Hrun as <-. now split.
  - intros ctx s emails r Hparse Hstrings Hfound.
    rewrite (groups_patch_run ctx emails s r Hparse Hfound (strings_bindable _ Hstrings)).
    eexists. reflexivity.
Qed.

Lemma malformed_input_fails_before_persistence_witness :
  serve Sample.allow_all (fun _ _ _ => true) 6 Sample.by_name lower_C
    (mkSchemas (fun _ => None) (fun _ => None) (fun _ => None) (fun _ => None)
               (fun _ => None) (fun _ => None) (fun _ => None) (fun _ => None))
    "g-new" groups_create_route Sample.ctx (Some (JObj [("name", JNum 7)]))
    Sample.with_members = (Some ValidationError, Sample.with_members) /\
  groups_patch (Provisioning.request (Some "desk") "g-ops" (Some (JObj [])))
    Sample.with_members = (Err TypeError, Sample.with_members) /\
  (exists b,
     fst (groups_patch (Provisioning.request (Some "desk") "g-ops"
                          Provisioning.operations_object)
            Sample.with_members) = Ok b).
Proof.
  destruct (malformed_input_fails_before_persistence Sample.allow_all
              (fun _ _ _ => true) 6 Sample.by_name lower_C
              (mkSchemas (fun _ => None) (fun _ => None) (fun _ => None) (fun _ => None)
                         (fun _ => None) (fun _ => None) (fun _ => None)
                         (fun _ => None))
              "g-new")
    as [Hvalidated [Hpatch [_ Hprocessed]]].
  split; [|split].
  - apply Hvalidated. reflexivity.
  - apply Hpatch. reflexivity.
  - apply (Hprocessed _ _ [Some (JStr "a@x.com")] Sample.ops); reflexivity.
Defined.

(** C7, as the claim has it, fails: a body whose [Operations] is not an
    array but an object with a key "0" is not of the documented shape, yet
    the request succeeds and creates a membership. *)
Lemma groups_patch_malformed_body_persists :
  let ctx := Provisioning.request (Some "desk") "g-ops" Provisioning.operations_object in
  well_formed_body (request_body ctx) = false /\
  (exists b, fst (groups_patch ctx Sample.with_members) = Ok b) /\
  group_users (snd (groups_patch ctx Sample.with_members)) =
    (group_users Sample.with_members ++ [mkGroupUser "g-ops" "u-alice" "desk" 200])%list.
Proof.
  vm_compute. split; [reflexivity|]. split; [eexists; reflexivity | reflexivity].
Qed.

(** *** Adding members *)

Section AddFold.

Variables (ctx : PatchCtx) (authorId : string).
Hypothesis Hadd : op_is (request_body ctx) "add" = true.

Let id := params_id ctx.
Let step := fun rows u => sync_rows ctx authorId u rows.
Let fresh (u : User) := mkGroupUser id (u_id u) authorId (patch_time ctx).

Lemma sync_rows_add (u : User) (rows : list GroupUser) :
  sync_rows ctx authorId u rows =
    if existsb (same_pair id (u_id u)) rows then rows else (rows ++ [fresh u])%list.
Proof.
  unfold sync_rows. fold id.
  rewrite (op_add_not_remove _ Hadd), Hadd. reflexivity.
Qed.

Lemma same_pair_other (u : User) (uid : uuid) :
  u_id u <> uid -> same_pair id uid (fresh u) = false.
Proof.
  intros H. unfold same_pair; simpl.
  apply String.eqb_neq in H. rewrite H. apply andb_false_r.
Qed.

Lemma step_other (u : User) (uid : uuid) (rows : list GroupUser) :
  u_id u <> uid ->
  filter (same_pair id uid) (step rows u) = filter (same_pair id uid) rows.
Proof.
  intros H. unfold step. rewrite sync_rows_add.
  destruct (existsb (same_pair id (u_id u)) rows); [reflexivity|].
  rewrite filter_app; simpl. rewrite (same_pair_other u uid H).
  apply app_nil_r.
Qed.

Lemma step_present (u : User) (rows : list GroupUser) :
  existsb (same_pair id (u_id u)) rows = true -> step rows u = rows.
Proof.
  intros H. unfold step. rewrite sync_rows_add. now rewrite H.
Qed.

Lemma step_absent (u : User) (rows : list GroupUser) :
  existsb (same_pair id (u_id u)) rows = false ->
  filter (same_pair id (u_id u)) (step rows u) = [fresh u].
Proof.
  intros H. unfold step. rewrite sync_rows_add, H.
  apply filter_app_one; [exact H | apply same_pair_refl].
Qed.

(** Once the pair has its row, the rest of the batch keeps it as the only
    one. *)
Lemma fold_keeps_row (us : list User) (uid : uuid) (row : GroupUser)
    (rows : list GroupUser) :
  filter (same_pair id uid) rows = [row] ->
  filter (same_pair id uid) (fold_left step us rows) = [row].
Proof.
  revert rows. induction us as [|u us IH]; intros rows H; simpl; [exact H|].
  apply IH.
  destruct (String.eqb_spec (u_id u) uid) as [E|E].
  - rewrite step_present; [exact H|]. rewrite E.
    destruct (existsb (same_pair id uid) rows) eqn:Ex; [reflexivity|].
    apply existsb_filter in Ex. rewrite Ex in H. discriminate.
  - now rewrite step_other.
Qed.

Lemma fold_creates_row (us : list User) (u : User) (rows : list GroupUser) :
  In u us ->
  existsb (same_pair id (u_id u)) rows = false ->
  filter (same_pair id (u_id u)) (fold_left step us rows) = [fresh u].
Proof.
  revert rows. induction us as [|v us IH]; intros rows Hin Habsent; simpl;
    [contradiction|].
  destruct (String.eqb_spec (u_id v) (u_id u)) as [E|E].
  - apply fold_keeps_row.
    replace (fresh u) with (fresh v) by (unfold fresh; now rewrite E).
    rewrite <- E. apply step_absent. now rewrite E.
  - destruct Hin as [Hv|Hin]; [now subst v|].
    apply IH; [exact Hin|].
    apply existsb_filter. rewrite step_other by exact E.
    now apply existsb_filter.
Qed.

(** Rows are only appended. *)
Lemma fold_extends (us : list User) (rows : list GroupUser) :
  exists added, fold_left step us rows = (rows ++ added)%list.
Proof.
  revert rows. induction us as [|u us IH]; intros rows; simpl.
  - exists []. now rewrite app_nil_r.
  - destruct (IH (step rows u)) as [added Hadded]. rewrite Hadded.
    unfold step. rewrite sync_rows_add.
    destruct (existsb (same_pair id (u_id u)) rows).
    + now exists added.
    + exists (fresh u :: added). now rewrite <- app_assoc.
Qed.

End AddFold.

(** C1, as the code has it: with a non-empty DESK_UUID and
    Operations[0].op = "add", a request whose emails are all strings succeeds
    on an existing group, only appends membership rows, and every requested
    email that resolves to a user without membership in the group gets
    exactly one membership row for that (group, user) pair, created by the
    DESK_UUID actor. *)
Theorem groups_patch_add_creates_membership
    (ctx : PatchCtx) (s : Store) (authorId : string) (emails : list jsval)
    (r : GroupRow) :
  authorId_of ctx = Some authorId ->
  op_is (request_body ctx) "add" = true ->
  arrayEmailAddresses (request_body ctx) = Some emails ->
  forallb is_string emails = true ->
  find (fun r => gr_id r =? params_id ctx) (groups s) = Some r ->
  exists b s',
    groups_patch ctx s = (Ok b, s') /\
    (exists added, group_users s' = (group_users s ++ added)%list) /\
    forall u,
      In u (users s) -> email_in emails u = true ->
      pair_rows (params_id ctx) (u_id u) s = [] ->
      pair_rows (params_id ctx) (u_id u) s' =
        [mkGroupUser (params_id ctx) (u_id u) authorId (patch_time ctx)].
Proof.
  intros Hauthor Hadd Hparse Hstrings Hfound.
  do 2 eexists.
  split; [exact (groups_patch_run ctx emails s r Hparse Hfound
                   (strings_bindable _ Hstrings))|].
  unfold pair_rows, patched_rows; simpl. rewrite Hauthor. split.
  - apply fold_extends. exact Hadd.
  - intros u Hin Hemail Habsent.
    apply fold_creates_row.
    + exact Hadd.
    + apply filter_In. now split.
    + now apply existsb_filter.
Qed.

Lemma groups_patch_add_creates_membership_witness :
  exists b s',
    groups_patch (Provisioning.request (Some "desk") "g-ops" Provisioning.add_a_b)
      Sample.with_members = (Ok b, s') /\
    (exists added, group_users s' = (group_users Sample.with_members ++ added)%list) /\
    forall u,
      In u (users Sample.with_members) ->
      email_in [Some (JStr "a@x.com"); Some (JStr "b@x.com")] u = true ->
      pair_rows "g-ops" (u_id u) Sample.with_members = [] ->
      pair_rows "g-ops" (u_id u) s' = [mkGroupUser "g-ops" (u_id u) "desk" 200].
Proof.
  apply (groups_patch_add_creates_membership
           (Provisioning.request (Some "desk") "g-ops" Provisioning.add_a_b)
           Sample.with_members "desk"
           [Some (JStr "a@x.com"); Some (JStr "b@x.com")] Sample.ops);
    reflexivity.
Defined.

(** C1, as the claim has it, fails: without DESK_UUID the requested email
    a@x.com resolves to a user who has no membership in the group, and the
    request creates no membership row for the pair (and emits no event).
    Nor is the row created, with DESK_UUID set, when another entry of the
    request has a number for its email: the lookup of the users fails. *)
Lemma groups_patch_add_without_actor_creates_nothing :
  let ctx := Provisioning.request None "g-ops" Provisioning.add_a_b in
  let s' := snd (groups_patch ctx Sample.with_members) in
  op_is (request_body ctx) "add" = true /\
  email_in [Some (JStr "a@x.com"); Some (JStr "b@x.com")] Sample.alice = true /\
  In Sample.alice (users Sample.with_members) /\
  pair_rows "g-ops" "u-alice" Sample.with_members = [] /\
  pair_rows "g-ops" "u-alice" s' = [] /\
  pair_rows "g-ops" "u-alice" s' <> [mkGroupUser "g-ops" "u-alice" "desk" 200] /\
  events s' = [] /\
  let numeric := Provisioning.request (Some "desk") "g-ops"
                   (Provisioning.body "add" [Provisioning.entry "a@x.com";
                                             JObj [("email", JNum 5)]]) in
  groups_patch numeric Sample.with_members = (Err DatabaseError, Sample.with_members).
Proof.
  vm_compute. repeat split; try discriminate. now left.
Qed.

(** The scenario of the specification, with DESK_UUID set: the membership of
    a@x.com is created, b@x.com resolves to nobody, and no groups.add_user
    event is written, the event sitting behind [group.changed()]. *)
Example provisioning_add_scenario :
  let ctx := Provisioning.request (Some "desk") "g-ops" Provisioning.add_a_b in
  let s' := snd (groups_patch ctx Sample.empty_groups) in
  group_users s' = [mkGroupUser "g-ops" "u-alice" "desk" 200] /\
  events s' = [].
Proof. vm_compute. split; reflexivity. Qed.

(** *** Unresolved emails *)

Lemma fold_left_ext {A B} (f g : A -> B -> A) (l : list B) (a : A) :
  (forall a b, f a b = g a b) -> fold_left f l a = fold_left g l a.
Proof.
  intros H. revert a. induction l as [|b l IH]; intros a; simpl; [reflexivity|].
  now rewrite H, IH.
Qed.



Lemma filter_filter_other {A} (f g : A -> bool) (l : list A) :
  (forall x, f x = true -> g x = false) ->
  filter f (filter (fun x => negb (g x)) l) = filter f l.
Proof.
  intros H. induction l as [|x l IH]; simpl; [reflexivity|].
  destruct (g x) eqn:Eg; simpl.
  - destruct (f x) eqn:Ef; [|exact IH].
    rewrite (H x Ef) in Eg. discriminate.
  - now rewrite IH.
Qed.

Lemma same_pair_eq (g u g' u' : uuid) (x : GroupUser) :
  same_pair g u x = true -> same_pair g' u' x = true -> g = g' /\ u = u'.
Proof.
  unfold same_pair. intros H H'.
  apply andb_true_iff in H. apply andb_true_iff in H'.
  destruct H as [H1 H2], H' as [H1' H2'].
  apply String.eqb_eq in H1, H2, H1', H2'. split; congruence.
Qed.

(** A callback touches only the rows of its own (group, user) pair. *)
Lemma sync_rows_other (ctx : PatchCtx) (authorId : string) (u : User)
    (g' uid : uuid) (rows : list GroupUser) :
  g' <> params_id ctx \/ uid <> u_id u ->
  filter (same_pair g' uid) (sync_rows ctx authorId u rows) =
    filter (same_pair g' uid) rows.
Proof.
  intros Hother.
  assert (Hdisj : forall x, same_pair g' uid x = true ->
                            same_pair (params_id ctx) (u_id u) x = false).
  { intros x Hx. destruct (same_pair (params_id ctx) (u_id u) x) eqn:E; [|reflexivity].
    destruct (same_pair_eq _ _ _ _ x Hx E). tauto. }
  unfold sync_rows.
  destruct (existsb (same_pair (params_id ctx) (u_id u)) rows).
  - destruct (op_is (request_body ctx) "remove"); [|reflexivity].
    now apply filter_filter_other.
  - destruct (op_is (request_body ctx) "add"); [|reflexivity].
    rewrite filter_app; simpl.
    destruct (same_pair g' uid (mkGroupUser (params_id ctx) (u_id u) authorId
                                           (patch_time ctx))) eqn:E.
    + pose proof (same_pair_refl (params_id ctx) (u_id u) authorId (patch_time ctx)) as R.
      rewrite (Hdisj _ E) in R. discriminate.
    + apply app_nil_r.
Qed.

Lemma fold_sync_rows_other (ctx : PatchCtx) (authorId : string) (us : list User)
    (g' uid : uuid) (rows : list GroupUser) :
  g' <> params_id ctx \/ (forall u, In u us -> u_id u <> uid) ->
  filter (same_pair g' uid)
         (fold_left (fun rows u => sync_rows ctx authorId u rows) us rows) =
    filter (same_pair g' uid) rows.
Proof.
  revert rows. induction us as [|u us IH]; intros rows H; simpl; [reflexivity|].
  rewrite IH.
  - apply sync_rows_other. destruct H as [H|H]; [now left|].
    right. intros E. apply (H u); [now left | now symmetry].
  - destruct H as [H|H]; [now left|]. right. intros v Hv. apply H. now right.
Qed.





(** ** Query results: ordering and paging *)

Lemma insert_by_In {A} (leb : A -> A -> bool) (x y : A) (l : list A) :
  In x (insert_by leb y l) <-> x = y \/ In x l.
Proof.
  induction l as [|z l IH]; simpl.
  - intuition congruence.
  - destruct (leb y z); simpl; [intuition congruence|].
    rewrite IH. intuition congruence.
Qed.

Lemma sort_by_In {A} (leb : A -> A -> bool) (x : A) (l : list A) :
  In x (sort_by leb l) <-> In x l.
Proof.
  induction l as [|y l IH]; simpl; [tauto|].
  rewrite insert_by_In, IH. intuition congruence.
Qed.

Lemma firstn_incl {A} (n : nat) (l : list A) (x : A) :
  In x (firstn n l) -> In x l.
Proof.
  revert l. induction n as [|n IH]; intros [|y l]; simpl; try tauto.
  intros [H|H]; [now left | right; now apply IH].
Qed.

Lemma skipn_incl {A} (n : nat) (l : list A) (x : A) :
  In x (skipn n l) -> In x l.
Proof.
  revert l. induction n as [|n IH]; intros [|y l]; simpl; try tauto.
  intros H. right. now apply IH.
Qed.

Lemma page_incl {A} (p : Pagination) (l : list A) (x : A) :
  In x (page p l) -> In x l.
Proof.
  unfold page. intros H. eapply skipn_incl, firstn_incl, H.
Qed.

(** ** groups.list *)

(** C8: groups.list answers only with groups of the team of the acting
    user, that bear the name asked for when one is given and have the member
    asked for when one is given; the memberships of the answer are, group by
    group, those with a resolved user, cut after MAX_AVATAR_DISPLAY. *)
Theorem groups_list_scope
    (MAX_AVATAR_DISPLAY : nat)
    (group_column_leb : string -> GroupRow -> GroupRow -> bool)
    (ctx : Ctx) (input : GroupsListReq) (s : Store) :
  exists gs,
    groups_list MAX_AVATAR_DISPLAY group_column_leb ctx input s =
      (Ok (mkListBody gs (List.concat (map (shown MAX_AVATAR_DISPLAY) gs))), s) /\
    (forall g, In g gs ->
       (exists r, In r (groups s) /\ g = load_group s r) /\
       g_teamId g = u_teamId (auth_user ctx) /\
       (forall name, list_name input = Some name -> name <> "" -> g_name g = name) /\
       (forall uid, list_userId input = Some uid -> uid <> "" ->
          exists m, In m (groupMemberships g) /\ gu_userId (m_row m) = uid)) /\
    (forall g, In g gs ->
       List.length (shown MAX_AVATAR_DISPLAY g) <= MAX_AVATAR_DISPLAY /\
       (forall m, In m (shown MAX_AVATAR_DISPLAY g) ->
                  In m (groupMemberships g) /\ exists u, m_user m = Some u) /\
       (List.length (filter has_user (groupMemberships g)) <= MAX_AVATAR_DISPLAY ->
        shown MAX_AVATAR_DISPLAY g = filter has_user (groupMemberships g))).
Proof.
  eexists. split; [reflexivity|]. split.
  - intros g Hg. apply page_incl in Hg. apply sort_by_In in Hg.
    apply filter_In in Hg. destruct Hg as [Hin Hg].
    apply in_map_iff in Hin. destruct Hin as [r [Hr Hin]].
    apply andb_true_iff in Hg. destruct Hg as [Hmember Hwhere].
    apply andb_true_iff in Hwhere. destruct Hwhere as [Hteam Hname].
    split; [exists r; now split|].
    split; [now apply String.eqb_eq|].
    split.
    + intros name Hsome Hne. rewrite Hsome in Hname. simpl in Hname.
      apply String.eqb_neq in Hne. rewrite Hne in Hname. simpl in Hname.
      now apply String.eqb_eq.
    + intros uid Hsome Hne. rewrite Hsome in Hmember. simpl in Hmember.
      apply String.eqb_neq in Hne. rewrite Hne in Hmember. simpl in Hmember.
      apply existsb_exists in Hmember. destruct Hmember as [m [Hm Heq]].
      exists m. split; [exact Hm | now apply String.eqb_eq].
  - intros g _. unfold shown. split; [apply firstn_le_length|]. split.
    + intros m Hm. apply firstn_incl in Hm. apply filter_In in Hm.
      destruct Hm as [Hin Hu]. split; [exact Hin|].
      unfold has_user in Hu. destruct (m_user m) as [u|]; [now exists u | discriminate].
    + intros Hlen. now apply firstn_all2.
Qed.

Section Sorting.

Context {A : Type} (leb : A -> A -> bool).
Hypothesis leb_total : forall a b, leb a b = false -> leb b a = true.
Hypothesis leb_trans : forall a b c, leb a b = true -> leb b c = true -> leb a c = true.

Let R := fun a b => leb a b = true.

Lemma insert_by_sorted (x : A) (l : list A) :
  StronglySorted R l -> StronglySorted R (insert_by leb x l).
Proof.
  induction l as [|y l IH]; simpl; intros Hs.
  - constructor; constructor.
  - inversion Hs as [|? ? Hl Hy]; subst.
    destruct (leb x y) eqn:E.
    + constructor; [exact Hs|].
      constructor; [exact E|].
      rewrite Forall_forall in *. intros z Hz. eapply leb_trans; [exact E|].
      now apply Hy.
    + constructor; [now apply IH|].
      rewrite Forall_forall in *. intros z Hz.
      apply insert_by_In in Hz. destruct Hz as [->|Hz].
      * now apply leb_total.
      * now apply Hy.
Qed.

Lemma sort_by_sorted (l : list A) : StronglySorted R (sort_by leb l).
Proof.
  induction l as [|x l IH]; simpl; [constructor|].
  now apply insert_by_sorted.
Qed.

End Sorting.

Lemma firstn_sorted {A} (R : A -> A -> Prop) (n : nat) (l : list A) :
  StronglySorted R l -> StronglySorted R (firstn n l).
Proof.
  revert l. induction n as [|n IH]; intros [|x l] Hs; simpl; try constructor.
  - inversion Hs; subst. now apply IH.
  - inversion Hs as [|? ? _ Hx]; subst.
    rewrite Forall_forall in *. intros z Hz. apply Hx. eapply firstn_incl, Hz.
Qed.

Lemma skipn_sorted {A} (R : A -> A -> Prop) (n : nat) (l : list A) :
  StronglySorted R l -> StronglySorted R (skipn n l).
Proof.
  revert l. induction n as [|n IH]; intros [|x l] Hs; simpl; try assumption.
  inversion Hs; subst. now apply IH.
Qed.

Lemma page_sorted {A} (R : A -> A -> Prop) (p : Pagination) (l : list A) :
  StronglySorted R l -> StronglySorted R (page p l).
Proof.
  intros H. unfold page. now apply firstn_sorted, skipn_sorted.
Qed.

(** ** LIKE patterns without metacharacters *)

Lemma chars_app (a b : string) : chars (a ++ b) = (chars a ++ chars b)%list.
Proof.
  unfold chars. induction a as [|c a IH]; simpl; [reflexivity|].
  now rewrite IH.
Qed.

Lemma utf8_chars_head (d : ascii) (s : list ascii) :
  exists g rest, utf8_chars (d :: s) = (d :: g) :: rest.
Proof.
  simpl. destruct (utf8_chars s) as [|[|e g] rest].
  - now exists [], [].
  - now exists [], ([] :: rest).
  - destruct (continuation e); eexists; eexists; reflexivity.
Qed.

(** Characters do not run across a place where a character begins. *)
Lemma utf8_chars_app (a b : list ascii) :
  match b with c :: _ => continuation c = false | [] => True end ->
  utf8_chars (a ++ b) = (utf8_chars a ++ utf8_chars b)%list.
Proof.
  intros Hb. induction a as [|c a IH]; [reflexivity|].
  change ((c :: a) ++ b)%list with (c :: (a ++ b))%list.
  cbn [utf8_chars]. rewrite IH.
  destruct a as [|d a].
  - cbn [utf8_chars app]. destruct b as [|e b]; [reflexivity|].
    destruct (utf8_chars_head e b) as [g [rest Hhead]]. rewrite Hhead.
    now rewrite Hb.
  - destruct (utf8_chars_head d a) as [g [rest Hhead]]. rewrite Hhead.
    cbn [app]. now destruct (continuation d).
Qed.

Lemma text_pattern (q : string) :
  begins_character q = true ->
  text ("%" ++ q ++ "%") = (pct :: text q ++ [pct])%list.
Proof.
  intros Hq. unfold text. rewrite !chars_app.
  change (chars "%") with ["%"%char].
  rewrite (utf8_chars_app ["%"%char]).
  - rewrite (utf8_chars_app (chars q)); reflexivity.
  - unfold begins_character in Hq.
    destruct (chars q) as [|c rest]; [reflexivity|].
    now apply negb_true_iff.
Qed.

Lemma like_pct (p s : list character) :
  like (pct :: p) s =
    like p s || match s with [] => false | _ :: s' => like (pct :: p) s' end.
Proof.
  destruct s; reflexivity.
Qed.

Lemma like_pct_end (s : list character) : like [pct] s = true.
Proof.
  induction s as [|d s IH]; [reflexivity|].
  rewrite like_pct. rewrite IH. apply orb_true_r.
Qed.

Lemma like_literal (c : character) (p s : list character) :
  metachar c = false ->
  like (c :: p) s = match s with
                    | [] => false
                    | d :: s' => char_eqb c d && like p s'
                    end.
Proof.
  unfold metachar. intros H.
  apply orb_false_iff in H. destruct H as [H Hb].
  apply orb_false_iff in H. destruct H as [Hp Hu].
  cbn [like]. now rewrite Hp, Hu, Hb.
Qed.

Lemma like_plain_prefix (p s : list character) :
  forallb (fun c => negb (metachar c)) p = true ->
  like (p ++ [pct]) s = starts_with p s.
Proof.
  revert s. induction p as [|c p IH]; intros s Hp.
  - simpl app. rewrite like_pct_end. now destruct s.
  - simpl in Hp. apply andb_true_iff in Hp. destruct Hp as [Hc Hp].
    apply negb_true_iff in Hc.
    simpl app. rewrite like_literal by exact Hc.
    destruct s as [|d s]; [reflexivity|]. simpl. now rewrite IH.
Qed.

Lemma like_plain_contains (p s : list character) :
  forallb (fun c => negb (metachar c)) p = true ->
  like (pct :: p ++ [pct]) s = contains p s.
Proof.
  intros Hp. induction s as [|d s IH].
  - rewrite like_pct, like_plain_prefix by exact Hp. reflexivity.
  - rewrite like_pct, like_plain_prefix by exact Hp.
    rewrite IH. reflexivity.
Qed.

Lemma iLike_plain (lower : character -> character) (q name : string) :
  lower pct = pct ->
  begins_character q = true ->
  plain lower q = true ->
  iLike lower ("%" ++ q ++ "%") name = contains_ci lower q name.
Proof.
  intros Hpct Hbegin Hq. unfold iLike, contains_ci.
  rewrite (text_pattern q Hbegin).
  cbn [map]. rewrite map_app. cbn [map]. rewrite Hpct.
  apply like_plain_contains.
  unfold plain in Hq. rewrite forallb_forall in *.
  intros c Hc. apply in_map_iff in Hc. destruct Hc as [c0 [<- Hc0]].
  now apply Hq.
Qed.

Lemma StronglySorted_weaken {A} (R R' : A -> A -> Prop) (l : list A) :
  (forall a b, R a b -> R' a b) -> StronglySorted R l -> StronglySorted R' l.
Proof.
  intros H Hs. induction Hs as [|x l Hs IH Hx]; constructor; [exact IH|].
  eapply Forall_impl; [|exact Hx]. intros b. apply H.
Qed.

(** ** groups.memberships *)

(** C9, as the code has it: groups.memberships answers with a page of the
    membership rows of the group that have a user, newest first; with a
    query, only rows whose user name matches the ILIKE pattern %query%, which
    for a query that, lowercased, has none of the metacharacters %, _ and
    backslash is case-insensitive containment of the query in the name. *)
Theorem groups_memberships_newest_first
    (can : User -> string -> target -> bool) (db_lower : character -> character)
    (ctx : Ctx) (input : GroupsMembershipsReq) (s : Store) (r : GroupRow) :
  find (fun r => gr_id r =? mem_id input) (groups s) = Some r ->
  can (auth_user ctx) "read" (TGroup (load_group s r)) = true ->
  exists all,
    let ms := page (pagination ctx) all in
    groups_memberships can db_lower ctx input s =
      (Ok (mkMembershipsBody ms (map m_user ms)), s) /\
    StronglySorted created_not_before all /\
    StronglySorted created_not_before ms /\
    (forall m, In m ms -> In m all) /\
    (forall m, In m all <->
       In m (memberships_of s (mem_id input)) /\
       user_matches db_lower (userWhere_of (mem_query input)) m = true) /\
    (forall m, In m all ->
       In (m_row m) (group_users s) /\
       gu_groupId (m_row m) = mem_id input /\
       exists u,
         m_user m = Some u /\ In u (users s) /\ u_id u = gu_userId (m_row m) /\
         forall q, mem_query input = Some q -> q <> "" ->
           iLike db_lower ("%" ++ q ++ "%") (u_name u) = true /\
           (db_lower pct = pct -> begins_character q = true ->
            plain db_lower q = true ->
            contains_ci db_lower q (u_name u) = true)).
Proof.
  intros Hfound Hallowed.
  exists (sort_by newest_first
            (filter (user_matches db_lower (userWhere_of (mem_query input)))
                    (memberships_of s (mem_id input)))).
  assert (Hsorted : StronglySorted created_not_before
            (sort_by newest_first
               (filter (user_matches db_lower (userWhere_of (mem_query input)))
                       (memberships_of s (mem_id input))))).
  { eapply StronglySorted_weaken; [|apply sort_by_sorted].
    - intros a b H. unfold newest_first in H. unfold created_not_before.
      now apply Z.leb_le.
    - intros a b H. unfold newest_first in *.
      apply Z.leb_gt in H. apply Z.leb_le. lia.
    - intros a b c H1 H2. unfold newest_first in *.
      apply Z.leb_le in H1, H2. apply Z.leb_le. lia. }
  cbv zeta. split; [|split; [exact Hsorted|split; [now apply page_sorted|split; [|split]]]].
  - unfold groups_memberships, bind, Group_findByPk, GroupUser_findAll, gets,
      authorize; simpl.
    rewrite Hfound; simpl. rewrite Hallowed; simpl. reflexivity.
  - intros m. apply page_incl.
  - intros m. rewrite sort_by_In, filter_In. reflexivity.
  - intros m Hm. apply sort_by_In in Hm. apply filter_In in Hm.
    destruct Hm as [Hin Hmatch].
    unfold memberships_of in Hin. apply in_map_iff in Hin.
    destruct Hin as [row [<- Hrow]]. apply filter_In in Hrow.
    destruct Hrow as [Hrow Hgid]. simpl.
    split; [exact Hrow|]. split; [now apply String.eqb_eq|].
    unfold user_matches in Hmatch. simpl in Hmatch.
    destruct (find (fun u => u_id u =? gu_userId row) (users s)) as [u|] eqn:Hu;
      [|discriminate].
    destruct (find_user_id _ _ _ Hu) as [Huid Huin].
    exists u. split; [reflexivity|]. split; [exact Huin|]. split; [exact Huid|].
    intros q Hq Hne.
    assert (Hlike : iLike db_lower ("%" ++ q ++ "%") (u_name u) = true).
    { unfold userWhere_of in Hmatch. rewrite Hq in Hmatch. simpl in Hmatch.
      apply String.eqb_neq in Hne. rewrite Hne in Hmatch. exact Hmatch. }
    split; [exact Hlike|].
    intros Hpct Hbegin Hplain.
    now rewrite <- (iLike_plain db_lower _ _ Hpct Hbegin Hplain).
Qed.

Lemma groups_memberships_newest_first_witness :
  exists all,
    let ms := page (pagination Sample.ctx) all in
    groups_memberships Sample.allow_all lower_C Sample.ctx
      (mkGroupsMembershipsReq "g-eng" (Some "jan")) Sample.with_members =
      (Ok (mkMembershipsBody ms (map m_user ms)), Sample.with_members) /\
    StronglySorted created_not_before all /\
    StronglySorted created_not_before ms /\
    (forall m, In m ms -> In m all) /\
    (forall m, In m all <->
       In m (memberships_of Sample.with_members "g-eng") /\
       user_matches lower_C (userWhere_of (Some "jan")) m = true) /\
    (forall m, In m all ->
       In (m_row m) (group_users Sample.with_members) /\
       gu_groupId (m_row m) = "g-eng" /\
       exists u,
         m_user m = Some u /\ In u (users Sample.with_members) /\
         u_id u = gu_userId (m_row m) /\
         forall q, Some "jan" = Some q -> q <> "" ->
           iLike lower_C ("%" ++ q ++ "%") (u_name u) = true /\
           (lower_C pct = pct -> begins_character q = true ->
            plain lower_C q = true ->
            contains_ci lower_C q (u_name u) = true)).
Proof.
  apply (groups_memberships_newest_first Sample.allow_all lower_C Sample.ctx
           (mkGroupsMembershipsReq "g-eng" (Some "jan")) Sample.with_members Sample.eng);
    reflexivity.
Defined.

(** C9, as the claim has it, fails: with the query "_" the member named
    Jan is returned, whose name does not contain an underscore. *)
Lemma groups_memberships_underscore_matches_any :
  let row := mkGroupUser "g-eng" "u-jan" "u-admin" 20 in
  exists body,
    fst (groups_memberships Sample.allow_all lower_C Sample.ctx
           (mkGroupsMembershipsReq "g-eng" (Some "_")) Sample.with_members) = Ok body /\
    In (mkMembership row (Some Sample.jan)) (mb_groupMemberships body) /\
    contains_ci lower_C "_" (u_name Sample.jan) = false.
Proof.
  eexists. split; [vm_compute; reflexivity|]. split; [now left | reflexivity].
Qed.

(** ** Outcomes of the handlers that write *)

Lemma groups_update_denied (can : User -> string -> target -> bool) (ctx : Ctx)
    (input : GroupsUpdateReq) (s : Store) :
  match find (fun r => gr_id r =? upd_id input) (groups s) with
  | Some r => can (auth_user ctx) "update" (TGroup (load_group s r)) = false
  | None => True
  end ->
  groups_update can ctx input s = (Err AuthorizationError, s).
Proof.
  intros H. unfold groups_update, bind, Group_findByPk, gets, authorize; simpl.
  destruct (find (fun r => gr_id r =? upd_id input) (groups s)) as [r|]; simpl;
    [|reflexivity].
  now rewrite H.
Qed.

Lemma groups_delete_denied (can : User -> string -> target -> bool) (ctx : Ctx)
    (id : uuid) (s : Store) :
  match find (fun r => gr_id r =? id) (groups s) with
  | Some r => can (auth_user ctx) "delete" (TGroup (load_group s r)) = false
  | None => True
  end ->
  groups_delete can ctx id s = (Err AuthorizationError, s).
Proof.
  intros H. unfold groups_delete, bind, Group_findByPk, gets, authorize; simpl.
  destruct (find (fun r => gr_id r =? id) (groups s)) as [r|]; simpl; [|reflexivity].
  now rewrite H.
Qed.

Lemma groups_add_user_denied (can : User -> string -> target -> bool) (ctx : Ctx)
    (id userId : uuid) (s : Store) :
  member_change_granted can (auth_user ctx) id userId s = None ->
  groups_add_user can ctx (mkGroupsUserReq id userId) s = (Err AuthorizationError, s).
Proof.
  unfold member_change_granted, groups_add_user, bind, User_findByPk, Group_findByPk,
    gets, authorize; simpl.
  destruct (find (fun u => u_id u =? userId) (users s)) as [u|]; simpl; [|reflexivity].
  destruct (can (auth_user ctx) "read" (TUser u)); simpl.
  - destruct (find (fun r => gr_id r =? id) (groups s)) as [r|]; simpl; [|reflexivity].
    destruct (can (auth_user ctx) "update" (TGroup (load_group s r))); simpl;
      [discriminate | reflexivity].
  - destruct (find (fun r => gr_id r =? id) (groups s)); reflexivity.
Qed.

Lemma groups_remove_user_denied (can : User -> string -> target -> bool) (ctx : Ctx)
    (id userId : uuid) (s : Store) :
  member_change_granted can (auth_user ctx) id userId s = None ->
  groups_remove_user can ctx (mkGroupsUserReq id userId) s = (Err AuthorizationError, s).
Proof.
  unfold member_change_granted, groups_remove_user, bind, User_findByPk, Group_findByPk,
    gets, authorize; simpl.
  destruct (find (fun r => gr_id r =? id) (groups s)) as [r|]; simpl.
  - destruct (can (auth_user ctx) "update" (TGroup (load_group s r))); simpl.
    + destruct (find (fun u => u_id u =? userId) (users s)) as [u|]; simpl; [|reflexivity].
      destruct (can (auth_user ctx) "read" (TUser u)); simpl; [discriminate | reflexivity].
    + destruct (find (fun u => u_id u =? userId) (users s)) as [u|]; simpl; [|reflexivity].
      destruct (can (auth_user ctx) "read" (TUser u)); reflexivity.
  - destruct (find (fun u => u_id u =? userId) (users s)); reflexivity.
Qed.

Lemma member_change_granted_inv (can : User -> string -> target -> bool)
    (actor : User) (id userId : uuid) (s : Store) (r : GroupRow) (u : User) :
  member_change_granted can actor id userId s = Some (r, u) ->
  find (fun u => u_id u =? userId) (users s) = Some u /\
  find (fun r => gr_id r =? id) (groups s) = Some r /\
  can actor "read" (TUser u) = true /\
  can actor "update" (TGroup (load_group s r)) = true.
Proof.
  unfold member_change_granted.
  destruct (find (fun u => u_id u =? userId) (users s)) as [u0|]; [|discriminate].
  destruct (find (fun r => gr_id r =? id) (groups s)) as [r0|]; [|discriminate].
  destruct (can actor "read" (TUser u0)) eqn:E1; simpl; [|discriminate].
  destruct (can actor "update" (TGroup (load_group s r0))) eqn:E2; simpl; [|discriminate].
  intros H. injection H as <- <-. repeat split; assumption.
Qed.

Lemma groups_add_user_granted (can : User -> string -> target -> bool) (ctx : Ctx)
    (id userId : uuid) (s : Store) (r : GroupRow) (u : User) :
  member_change_granted can (auth_user ctx) id userId s = Some (r, u) ->
  snd (groups_add_user can ctx (mkGroupsUserReq id userId) s) =
    (if existsb (same_pair id userId) (group_users s)
     then s else added_store ctx id userId u s) /\
  exists body, fst (groups_add_user can ctx (mkGroupsUserReq id userId) s) = Ok body.
Proof.
  intros Hgranted.
  destruct (member_change_granted_inv _ _ _ _ _ _ _ Hgranted) as [Hu [Hg [Hcu Hcg]]].
  pose proof (find_group_id _ _ _ Hg) as Hid.
  destruct (find_user_id _ _ _ Hu) as [Huid _].
  destruct (existsb (same_pair id userId) (group_users s)) eqn:Hex.
  - split; [now apply groups_add_user_existing|].
    unfold groups_add_user, bind, User_findByPk, Group_findByPk, GroupUser_findOne,
      gets, authorize; simpl.
    rewrite Hu; simpl. rewrite Hcu; simpl. rewrite Hg; simpl. rewrite Hcg; simpl.
    fold (same_pair id userId). rewrite existsb_find in Hex.
    destruct (find (same_pair id userId) (group_users s)); [|discriminate].
    simpl. eexists; reflexivity.
  - set (row := mkGroupUser id userId (u_id (auth_user ctx)) (request_time ctx)).
    assert (Hfind : find (same_pair id userId) (group_users s ++ [row]) = Some row)
      by (apply find_app_absent; [exact Hex | apply same_pair_refl]).
    unfold groups_add_user, bind, User_findByPk, Group_findByPk, GroupUser_findOne,
      GroupUser_findOne_reject, Group_findByPk_reject, gets, authorize; simpl.
    rewrite Hu; simpl. rewrite Hcu; simpl. rewrite Hg; simpl. rewrite Hcg; simpl.
    fold (same_pair id userId).
    rewrite (find_absent _ _ Hex); simpl.
    unfold bind, GroupUser_findOne, Group_findByPk, gets; simpl.
    unfold g_id; simpl. rewrite Hid, Huid.
    fold row. fold (same_pair id userId).
    rewrite Hex. rewrite Hfind; simpl. rewrite Hg; simpl.
    unfold ret, g_id, added_store; simpl. rewrite Hid.
    split; [reflexivity | eexists; reflexivity].
Qed.

Lemma groups_remove_user_granted (can : User -> string -> target -> bool) (ctx : Ctx)
    (id userId : uuid) (s : Store) (r : GroupRow) (u : User) :
  member_change_granted can (auth_user ctx) id userId s = Some (r, u) ->
  groups_remove_user can ctx (mkGroupsUserReq id userId) s =
    (Ok (load_group (removed_store ctx id userId u s) r),
     removed_store ctx id userId u s).
Proof.
  intros Hgranted.
  destruct (member_change_granted_inv _ _ _ _ _ _ _ Hgranted) as [Hu [Hg [Hcu Hcg]]].
  pose proof (find_group_id _ _ _ Hg) as Hid.
  destruct (find_user_id _ _ _ Hu) as [Huid _].
  unfold groups_remove_user, bind, Group_findByPk, Group_findByPk_reject,
    User_findByPk, gets, authorize; simpl.
  rewrite Hg; simpl. rewrite Hcg; simpl. rewrite Hu; simpl. rewrite Hcu; simpl.
  unfold bind, Group_findByPk, gets; simpl. rewrite Hg; simpl.
  unfold g_id, removed_store; simpl. rewrite Hid, Huid. reflexivity.
Qed.

Lemma groups_update_outcomes (can : User -> string -> target -> bool) (ctx : Ctx)
    (input : GroupsUpdateReq) (s : Store) :
  groups_update can ctx input s = (Err AuthorizationError, s) \/
  (exists g, groups_update can ctx input s = (Ok g, s)) \/
  (exists g r e,
     find (fun r => gr_id r =? upd_id input) (groups s) = Some r /\
     gr_name r <> upd_name input /\
     ev_name e = "groups.update" /\
     groups_update can ctx input s =
       (Ok g, mkStore (map (fun x => if gr_id x =? gr_id r
                                     then mkGroupRow (gr_id r) (upd_name input)
                                                     (gr_teamId r) (gr_createdById r)
                                     else x) (groups s))
                      (users s) (group_users s) (events s ++ [e]))).
Proof.
  destruct input as [id name]; simpl.
  destruct (find (fun r => gr_id r =? id) (groups s)) as [r|] eqn:Hfound.
  - destruct (can (auth_user ctx) "update" (TGroup (load_group s r))) eqn:Hcan.
    + destruct (string_dec (gr_name r) name) as [Hname|Hname].
      * right; left. eexists. exact (update_same_name can ctx s r id name Hfound Hcan Hname).
      * right; right. do 3 eexists. split; [reflexivity|]. split; [exact Hname|].
        split; [|exact (update_new_name can ctx s r id name Hfound Hcan Hname)].
        reflexivity.
    + left. apply groups_update_denied. simpl. now rewrite Hfound.
  - left. apply groups_update_denied. simpl. now rewrite Hfound.
Qed.

Lemma groups_delete_outcomes (can : User -> string -> target -> bool) (ctx : Ctx)
    (id : uuid) (s : Store) :
  groups_delete can ctx id s = (Err AuthorizationError, s) \/
  (exists r e,
     find (fun r => gr_id r =? id) (groups s) = Some r /\
     ev_name e = "groups.delete" /\
     groups_delete can ctx id s =
       (Ok true,
        mkStore (filter (fun x => negb (gr_id x =? id)) (groups s)) (users s)
                (filter (fun x => negb (gu_groupId x =? id)) (group_users s))
                (events s ++ [e]))).
Proof.
  destruct (find (fun r => gr_id r =? id) (groups s)) as [r|] eqn:Hfound.
  - destruct (can (auth_user ctx) "delete" (TGroup (load_group s r))) eqn:Hcan.
    + right. do 2 eexists. split; [reflexivity|].
      split; [|exact (groups_delete_run can ctx id s r Hfound Hcan)]. reflexivity.
    + left. apply groups_delete_denied. now rewrite Hfound.
  - left. apply groups_delete_denied. now rewrite Hfound.
Qed.

(** ** What a failed request leaves behind *)

(** X1: groups.update, groups.delete, groups.add_user and
    groups.remove_user fail only with the authorization error, and a failed
    request has written nothing: neither a row nor an event. *)
Theorem failed_request_writes_nothing
    (can : User -> string -> target -> bool) (ctx : Ctx) (s : Store) (e : error) :
  (forall input,
     fst (groups_update can ctx input s) = Err e ->
     e = AuthorizationError /\ snd (groups_update can ctx input s) = s) /\
  (forall id,
     fst (groups_delete can ctx id s) = Err e ->
     e = AuthorizationError /\ snd (groups_delete can ctx id s) = s) /\
  (forall input,
     fst (groups_add_user can ctx input s) = Err e ->
     e = AuthorizationError /\ snd (groups_add_user can ctx input s) = s) /\
  (forall input,
     fst (groups_remove_user can ctx input s) = Err e ->
     e = AuthorizationError /\ snd (groups_remove_user can ctx input s) = s).
Proof.
  split; [|split; [|split]].
  - intros input H.
    destruct (groups_update_outcomes can ctx input s)
      as [Hr|[[g Hr]|[g [r [ev [_ [_ [_ Hr]]]]]]]]; rewrite Hr in *; simpl in *;
      try discriminate.
    injection H as <-. now split.
  - intros id H.
    destruct (groups_delete_outcomes can ctx id s) as [Hr|[r [ev [_ [_ Hr]]]]];
      rewrite Hr in *; simpl in *; try discriminate.
    injection H as <-. now split.
  - intros [id userId] H.
    destruct (member_change_granted can (auth_user ctx) id userId s) as [[r u]|] eqn:G.
    + destruct (groups_add_user_granted can ctx id userId s r u G) as [_ [body Hb]].
      rewrite Hb in H. discriminate.
    + rewrite (groups_add_user_denied can ctx id userId s G) in *. simpl in *.
      injection H as <-. now split.
  - intros [id userId] H.
    destruct (member_change_granted can (auth_user ctx) id userId s) as [[r u]|] eqn:G.
    + rewrite (groups_remove_user_granted can ctx id userId s r u G) in H. discriminate.
    + rewrite (groups_remove_user_denied can ctx id userId s G) in *. simpl in *.
      injection H as <-. now split.
Qed.

Lemma failed_request_writes_nothing_witness :
  AuthorizationError = AuthorizationError /\
  snd (groups_update Sample.allow_all Sample.ctx (mkGroupsUpdateReq "g-none" "X")
         Sample.with_members) = Sample.with_members.
Proof.
  destruct (failed_request_writes_nothing Sample.allow_all Sample.ctx
              Sample.with_members AuthorizationError) as [Hupdate _].
  apply Hupdate. reflexivity.
Defined.

(** X2: the audit log is append-only and a request adds at most one event
    to it: after groups.update, groups.delete, groups.add_user or
    groups.remove_user the earlier events are all there, in their order,
    followed by at most one new event; none of them touches the users. *)
Theorem audit_log_append_only
    (can : User -> string -> target -> bool) (ctx : Ctx) (s : Store) :
  (forall input,
     let s' := snd (groups_update can ctx input s) in
     users s' = users s /\
     exists added, events s' = (events s ++ added)%list /\ List.length added <= 1) /\
  (forall id,
     let s' := snd (groups_delete can ctx id s) in
     users s' = users s /\
     exists added, events s' = (events s ++ added)%list /\ List.length added <= 1) /\
  (forall input,
     let s' := snd (groups_add_user can ctx input s) in
     users s' = users s /\ groups s' = groups s /\
     exists added, events s' = (events s ++ added)%list /\ List.length added <= 1) /\
  (forall input,
     let s' := snd (groups_remove_user can ctx input s) in
     users s' = users s /\ groups s' = groups s /\
     exists added, events s' = (events s ++ added)%list /\ List.length added <= 1).
Proof.
  assert (Hnone : exists added : list Event,
             events s = (events s ++ added)%list /\ List.length added <= 1).
  { exists []. rewrite app_nil_r. split; [reflexivity | simpl; lia]. }
  split; [|split; [|split]].
  - intros input.
    destruct (groups_update_outcomes can ctx input s)
      as [Hr|[[g Hr]|[g [r [ev [_ [_ [_ Hr]]]]]]]]; rewrite Hr; simpl;
      (split; [reflexivity|]); try exact Hnone.
    exists [ev]. split; [reflexivity | simpl; lia].
  - intros id.
    destruct (groups_delete_outcomes can ctx id s) as [Hr|[r [ev [_ [_ Hr]]]]];
      rewrite Hr; simpl; (split; [reflexivity|]); try exact Hnone.
    exists [ev]. split; [reflexivity | simpl; lia].
  - intros [id userId].
    destruct (member_change_granted can (auth_user ctx) id userId s) as [[r u]|] eqn:G.
    + destruct (groups_add_user_granted can ctx id userId s r u G) as [Hs _].
      cbv zeta. rewrite Hs.
      destruct (existsb (same_pair id userId) (group_users s)); simpl.
      * repeat split; try reflexivity. exact Hnone.
      * repeat split; try reflexivity. eexists. split; [reflexivity | simpl; lia].
    + rewrite (groups_add_user_denied can ctx id userId s G). simpl.
      repeat split; try reflexivity. exact Hnone.
  - intros [id userId].
    destruct (member_change_granted can (auth_user ctx) id userId s) as [[r u]|] eqn:G.
    + rewrite (groups_remove_user_granted can ctx id userId s r u G). simpl.
      repeat split; try reflexivity. eexists. split; [reflexivity | simpl; lia].
    + rewrite (groups_remove_user_denied can ctx id userId s G). simpl.
      repeat split; try reflexivity. exact Hnone.
Qed.

(** X3: groups.list, groups.info and groups.memberships only read: whatever
    the input and whether they succeed or not, the store is the same
    afterwards. *)
Theorem read_handlers_write_nothing
    (can : User -> string -> target -> bool) (MAX_AVATAR_DISPLAY : nat)
    (group_column_leb : string -> GroupRow -> GroupRow -> bool)
    (db_lower : character -> character) (ctx : Ctx) (s : Store) :
  (forall input,
     snd (groups_list MAX_AVATAR_DISPLAY group_column_leb ctx input s) = s) /\
  (forall id, snd (groups_info can ctx id s) = s) /\
  (forall input, snd (groups_memberships can db_lower ctx input s) = s).
Proof.
  split; [|split].
  - intros input. reflexivity.
  - intros id. unfold groups_info, bind, Group_findByPk, gets, authorize; simpl.
    destruct (find (fun r => gr_id r =? id) (groups s)) as [r|]; simpl; [|reflexivity].
    destruct (can (auth_user ctx) "read" (TGroup (load_group s r))); reflexivity.
  - intros input.
    unfold groups_memberships, bind, Group_findByPk, GroupUser_findAll, gets,
      authorize; simpl.
    destruct (find (fun r => gr_id r =? mem_id input) (groups s)) as [r|]; simpl;
      [|reflexivity].
    destruct (can (auth_user ctx) "read" (TGroup (load_group s r))); reflexivity.
Qed.

Lemma member_change_granted_intro (can : User -> string -> target -> bool)
    (actor : User) (id userId : uuid) (s : Store) (r : GroupRow) (u : User) :
  find (fun u => u_id u =? userId) (users s) = Some u ->
  can actor "read" (TUser u) = true ->
  find (fun r => gr_id r =? id) (groups s) = Some r ->
  can actor "update" (TGroup (load_group s r)) = true ->
  member_change_granted can actor id userId s = Some (r, u).
Proof.
  intros Hu Hcu Hg Hcg. unfold member_change_granted.
  now rewrite Hu, Hg, Hcu, Hcg.
Qed.

(** ** groups.remove_user on an existing membership, and after groups.add_user *)

(** X4: a granted groups.remove_user deletes every membership row of the
    pair and no other row, leaves groups and users alone, emits one
    groups.remove_user event, and answers with the group as it is after the
    removal. *)
Theorem groups_remove_user_removes_pair
    (can : User -> string -> target -> bool) (ctx : Ctx) (id userId : uuid)
    (s : Store) (r : GroupRow) (u : User) :
  find (fun r => gr_id r =? id) (groups s) = Some r ->
  can (auth_user ctx) "update" (TGroup (load_group s r)) = true ->
  find (fun u => u_id u =? userId) (users s) = Some u ->
  can (auth_user ctx) "read" (TUser u) = true ->
  exists g s',
    groups_remove_user can ctx (mkGroupsUserReq id userId) s = (Ok g, s') /\
    pair_rows id userId s' = [] /\
    (forall x, In x (group_users s') <->
               In x (group_users s) /\ same_pair id userId x = false) /\
    (forall m, In m (groupMemberships g) -> gu_userId (m_row m) <> userId) /\
    groups s' = groups s /\ users s' = users s /\
    events s' = (events s ++ [mkEvent "groups.remove_user" (Some userId) (u_teamId u)
                                      id (u_id (auth_user ctx)) (u_name u)
                                      (request_ip ctx)])%list.
Proof.
  intros Hg Hcg Hu Hcu.
  pose proof (member_change_granted_intro can _ id userId s r u Hu Hcu Hg Hcg) as G.
  pose proof (find_group_id _ _ _ Hg) as Hid.
  do 2 eexists. split; [exact (groups_remove_user_granted can ctx id userId s r u G)|].
  unfold pair_rows, removed_store; simpl.
  split.
  { apply existsb_filter. apply not_true_is_false. intros Hex.
    apply existsb_exists in Hex. destruct Hex as [x [Hin Hx]].
    apply filter_In in Hin. destruct Hin as [_ Hneg].
    rewrite Hx in Hneg. discriminate. }
  split.
  { intros x. rewrite filter_In, negb_true_iff. reflexivity. }
  split; [|repeat split].
  intros m Hm. unfold memberships_of in Hm; simpl in Hm.
  apply in_map_iff in Hm. destruct Hm as [row [<- Hrow]]. simpl.
  apply filter_In in Hrow. destruct Hrow as [Hrow Hgid].
  apply filter_In in Hrow. destruct Hrow as [_ Hneg].
  apply negb_true_iff in Hneg. unfold same_pair in Hneg.
  rewrite Hid in Hgid. rewrite Hgid in Hneg. simpl in Hneg.
  now apply String.eqb_neq.
Qed.

Lemma groups_remove_user_removes_pair_witness :
  exists g s',
    groups_remove_user Sample.allow_all Sample.ctx (mkGroupsUserReq "g-eng" "u-jan")
      Sample.with_members = (Ok g, s') /\
    pair_rows "g-eng" "u-jan" s' = [] /\
    (forall x, In x (group_users s') <->
               In x (group_users Sample.with_members) /\
               same_pair "g-eng" "u-jan" x = false) /\
    (forall m, In m (groupMemberships g) -> gu_userId (m_row m) <> "u-jan") /\
    groups s' = groups Sample.with_members /\ users s' = users Sample.with_members /\
    events s' = (events Sample.with_members ++
                   [mkEvent "groups.remove_user" (Some "u-jan") "team-1" "g-eng"
                            "u-admin" "Jan" "10.0.0.1"])%list.
Proof.
  apply (groups_remove_user_removes_pair Sample.allow_all Sample.ctx "g-eng" "u-jan"
           Sample.with_members Sample.eng Sample.jan); reflexivity.
Defined.

(** X5: groups.add_user followed by groups.remove_user on a pair that had
    no membership restores the membership table; the log has gained the
    groups.add_user and the groups.remove_user event, in this order. *)
Theorem groups_add_then_remove_user
    (can : User -> string -> target -> bool) (ctx ctx' : Ctx) (id userId : uuid)
    (s : Store) (r : GroupRow) (u : User) :
  find (fun u => u_id u =? userId) (users s) = Some u ->
  find (fun r => gr_id r =? id) (groups s) = Some r ->
  can (auth_user ctx) "read" (TUser u) = true ->
  can (auth_user ctx) "update" (TGroup (load_group s r)) = true ->
  existsb (same_pair id userId) (group_users s) = false ->
  let s1 := snd (groups_add_user can ctx (mkGroupsUserReq id userId) s) in
  can (auth_user ctx') "read" (TUser u) = true ->
  can (auth_user ctx') "update" (TGroup (load_group s1 r)) = true ->
  let s2 := snd (groups_remove_user can ctx' (mkGroupsUserReq id userId) s1) in
  group_users s2 = group_users s /\
  groups s2 = groups s /\
  exists added removed,
    events s2 = (events s ++ [added; removed])%list /\
    ev_name added = "groups.add_user" /\ ev_actorId added = u_id (auth_user ctx) /\
    ev_name removed = "groups.remove_user" /\ ev_actorId removed = u_id (auth_user ctx') /\
    ev_userId added = Some userId /\ ev_userId removed = Some userId.
Proof.
  intros Hu Hg Hcu Hcg Habsent s1 Hcu' Hcg' s2.
  pose proof (member_change_granted_intro can _ id userId s r u Hu Hcu Hg Hcg) as G.
  destruct (groups_add_user_granted can ctx id userId s r u G) as [Hs1 _].
  rewrite Habsent in Hs1. fold s1 in Hs1.
  assert (G' : member_change_granted can (auth_user ctx') id userId s1 = Some (r, u)).
  { apply member_change_granted_intro; try assumption; rewrite Hs1; assumption. }
  unfold s2. rewrite (groups_remove_user_granted can ctx' id userId s1 r u G').
  rewrite Hs1. unfold removed_store, added_store; simpl.
  split.
  { rewrite filter_app; simpl. rewrite same_pair_refl; simpl.
    rewrite app_nil_r. now apply filter_none. }
  split; [reflexivity|].
  do 2 eexists. rewrite <- app_assoc. simpl. split; [reflexivity|]. repeat split.
Qed.

Lemma groups_add_then_remove_user_witness :
  let s1 := snd (groups_add_user Sample.allow_all Sample.ctx
                   (mkGroupsUserReq "g-ops" "u-alice") Sample.with_members) in
  let s2 := snd (groups_remove_user Sample.allow_all Sample.ctx
                   (mkGroupsUserReq "g-ops" "u-alice") s1) in
  group_users s2 = group_users Sample.with_members /\
  groups s2 = groups Sample.with_members /\
  exists added removed,
    events s2 = (events Sample.with_members ++ [added; removed])%list /\
    ev_name added = "groups.add_user" /\ ev_actorId added = "u-admin" /\
    ev_name removed = "groups.remove_user" /\ ev_actorId removed = "u-admin" /\
    ev_userId added = Some "u-alice" /\ ev_userId removed = Some "u-alice".
Proof.
  apply (groups_add_then_remove_user Sample.allow_all Sample.ctx Sample.ctx
           "g-ops" "u-alice" Sample.with_members Sample.ops Sample.alice);
    reflexivity.
Defined.

(** ** At most one membership row per pair *)

Lemma filter_filter_length {A} (p f : A -> bool) (l : list A) :
  List.length (filter p (filter f l)) <= List.length (filter p l).
Proof.
  induction l as [|x l IH]; simpl; [lia|].
  destruct (f x); simpl; destruct (p x); simpl; lia.
Qed.

Lemma unique_pairs_filter (f : GroupUser -> bool) (rows : list GroupUser) :
  unique_pairs rows -> unique_pairs (filter f rows).
Proof.
  intros H g u. specialize (H g u).
  pose proof (filter_filter_length (same_pair g u) f rows). lia.
Qed.

Lemma unique_pairs_add (g u c : uuid) (t : Z) (rows : list GroupUser) :
  unique_pairs rows ->
  existsb (same_pair g u) rows = false ->
  unique_pairs (rows ++ [mkGroupUser g u c t]).
Proof.
  intros H Habsent g' u'. rewrite filter_app, length_app. simpl.
  destruct (same_pair g' u' (mkGroupUser g u c t)) eqn:E; simpl.
  - destruct (same_pair_eq _ _ _ _ _ E (same_pair_refl g u c t)) as [-> ->].
    apply existsb_filter in Habsent. rewrite Habsent. simpl. lia.
  - specialize (H g' u'). lia.
Qed.

(** X6: the handlers keep the invariant of the membership table: when no
    (group, user) pair has more than one row before groups.add_user,
    groups.remove_user, groups.delete or groups.update, none has more than
    one afterwards, whoever calls and whatever the outcome. *)
Theorem membership_pairs_stay_unique
    (can : User -> string -> target -> bool) (ctx : Ctx) (s : Store) :
  unique_pairs (group_users s) ->
  (forall input, unique_pairs (group_users (snd (groups_add_user can ctx input s)))) /\
  (forall input, unique_pairs (group_users (snd (groups_remove_user can ctx input s)))) /\
  (forall id, unique_pairs (group_users (snd (groups_delete can ctx id s)))) /\
  (forall input, unique_pairs (group_users (snd (groups_update can ctx input s)))).
Proof.
  intros Huniq. split; [|split; [|split]].
  - intros [id userId].
    destruct (member_change_granted can (auth_user ctx) id userId s) as [[r u]|] eqn:G.
    + destruct (groups_add_user_granted can ctx id userId s r u G) as [Hs _].
      rewrite Hs.
      destruct (existsb (same_pair id userId) (group_users s)) eqn:Hex; [exact Huniq|].
      simpl. now apply unique_pairs_add.
    + now rewrite (groups_add_user_denied can ctx id userId s G).
  - intros [id userId].
    destruct (member_change_granted can (auth_user ctx) id userId s) as [[r u]|] eqn:G.
    + rewrite (groups_remove_user_granted can ctx id userId s r u G). simpl.
      now apply unique_pairs_filter.
    + now rewrite (groups_remove_user_denied can ctx id userId s G).
  - intros id.
    destruct (groups_delete_outcomes can ctx id s) as [Hr|[r [ev [_ [_ Hr]]]]];
      rewrite Hr; simpl; [exact Huniq|].
    now apply unique_pairs_filter.
  - intros input.
    destruct (groups_update_outcomes can ctx input s)
      as [Hr|[[g Hr]|[g [r [ev [_ [_ [_ Hr]]]]]]]]; rewrite Hr; exact Huniq.
Qed.

Lemma membership_pairs_stay_unique_witness :
  unique_pairs
    (group_users (snd (groups_add_user Sample.allow_all Sample.ctx
                         (mkGroupsUserReq "g-ops" "u-alice") Sample.with_members))).
Proof.
  apply (membership_pairs_stay_unique Sample.allow_all Sample.ctx Sample.with_members).
  change (group_users Sample.with_members)
    with (((([] ++ [mkGroupUser "g-eng" "u-alice" "u-admin" 10])
              ++ [mkGroupUser "g-eng" "u-jan" "u-admin" 20])
             ++ [mkGroupUser "g-ops" "u-jan" "u-admin" 30])
            ++ [mkGroupUser "g-eng" "u-gone" "u-admin" 40])%list.
  repeat (apply unique_pairs_add; [|reflexivity]).
  intros g u. simpl. lia.
Defined.

(** ** groups.update, repeated *)

(** X7: once groups.update has succeeded, the same update again (by this
    or any other actor) writes nothing and emits no second event, and the
    group answered carries the requested name. *)
Theorem groups_update_repeated
    (can : User -> string -> target -> bool) (ctx : Ctx)
    (input : GroupsUpdateReq) (s : Store) (g : Group) :
  fst (groups_update can ctx input s) = Ok g ->
  let s1 := snd (groups_update can ctx input s) in
  g_name g = upd_name input /\
  option_map gr_name (find (fun r => gr_id r =? upd_id input) (groups s1)) =
    Some (upd_name input) /\
  forall ctx', snd (groups_update can ctx' input s1) = s1.
Proof.
  intros Hok s1.
  assert (Hname : g_name g = upd_name input /\
                  option_map gr_name (find (fun r => gr_id r =? upd_id input) (groups s1))
                  = Some (upd_name input)).
  { unfold s1. destruct input as [id name]. simpl in *.
    destruct (find (fun r => gr_id r =? id) (groups s)) as [r|] eqn:Hfound.
    - destruct (can (auth_user ctx) "update" (TGroup (load_group s r))) eqn:Hcan.
      + destruct (string_dec (gr_name r) name) as [Hn|Hn].
        * rewrite (update_same_name can ctx s r id name Hfound Hcan Hn) in *.
          simpl in *. injection Hok as <-. rewrite Hfound. simpl.
          split; [exact Hn | now rewrite Hn].
        * rewrite (update_new_name can ctx s r id name Hfound Hcan Hn) in *.
          simpl in *. injection Hok as <-. split; [reflexivity|].
          pose proof (find_group_id _ _ _ Hfound) as Hid. rewrite Hid.
          erewrite find_map_updated; [reflexivity | reflexivity | exact Hfound].
      + rewrite groups_update_denied in Hok; [discriminate|]. simpl. now rewrite Hfound.
    - rewrite groups_update_denied in Hok; [discriminate|]. simpl. now rewrite Hfound. }
  destruct Hname as [Hg Hrow]. split; [exact Hg|]. split; [exact Hrow|].
  intros ctx'.
  destruct (find (fun r => gr_id r =? upd_id input) (groups s1)) as [r1|] eqn:Hfound1;
    [|discriminate].
  simpl in Hrow. injection Hrow as Hrow.
  destruct (can (auth_user ctx') "update" (TGroup (load_group s1 r1))) eqn:Hcan.
  - destruct input as [id name]. simpl in *.
    now rewrite (update_same_name can ctx' s1 r1 id name Hfound1 Hcan Hrow).
  - rewrite groups_update_denied; [reflexivity|]. now rewrite Hfound1.
Qed.

Lemma groups_update_repeated_witness :
  let input := mkGroupsUpdateReq "g-eng" "Engineering" in
  let s1 := snd (groups_update Sample.allow_all Sample.ctx input Sample.with_members) in
  "Engineering" = upd_name input /\
  option_map gr_name (find (fun r => gr_id r =? upd_id input) (groups s1)) =
    Some (upd_name input) /\
  forall ctx', snd (groups_update Sample.allow_all ctx' input s1) = s1.
Proof.
  apply (groups_update_repeated Sample.allow_all Sample.ctx
           (mkGroupsUpdateReq "g-eng" "Engineering") Sample.with_members
           (mkGroup (mkGroupRow "g-eng" "Engineering" "team-1" "u-admin")
                    (memberships_of Sample.with_members "g-eng") false)).
  reflexivity.
Defined.

(** ** groups.create *)

(** X8: with "createGroup" granted on the team and a generated id that no
    group bears, groups.create appends one group row with the given name,
    the team of the actor and the actor as creator, touches no membership,
    emits exactly one groups.create event whose data.name is that name, and
    a groups.info on the new id by anyone allowed to read it answers with the
    very group that create returned.  Without the grant it fails with the
    authorization error and writes nothing. *)
Theorem groups_create_then_info
    (can : User -> string -> target -> bool) (can_team : User -> string -> uuid -> bool)
    (ctx : Ctx) (generated_id : uuid) (name : string) (s : Store) :
  (can_team (auth_user ctx) "createGroup" (u_teamId (auth_user ctx)) = false ->
   groups_create can_team ctx generated_id name s = (Err AuthorizationError, s)) /\
  (can_team (auth_user ctx) "createGroup" (u_teamId (auth_user ctx)) = true ->
   find (fun r => gr_id r =? generated_id) (groups s) = None ->
   exists g s1,
     groups_create can_team ctx generated_id name s = (Ok g, s1) /\
     g_row g = mkGroupRow generated_id name (u_teamId (auth_user ctx))
                          (u_id (auth_user ctx)) /\
     groupMemberships g = memberships_of s generated_id /\
     groups s1 = (groups s ++ [g_row g])%list /\
     group_users s1 = group_users s /\ users s1 = users s /\
     events s1 = (events s ++ [mkEvent "groups.create" None (u_teamId (auth_user ctx))
                                       generated_id (u_id (auth_user ctx)) name
                                       (request_ip ctx)])%list /\
     forall ctx',
       can (auth_user ctx') "read" (TGroup g) = true ->
       groups_info can ctx' generated_id s1 = (Ok g, s1)).
Proof.
  split.
  - intros Hdenied. unfold groups_create, bind, authorize_team. now rewrite Hdenied.
  - intros Hgranted Hfresh.
    set (row := mkGroupRow generated_id name (u_teamId (auth_user ctx))
                           (u_id (auth_user ctx))).
    assert (Hfind : forall l : list GroupRow,
               find (fun r => gr_id r =? generated_id) l = None ->
               find (fun r => gr_id r =? generated_id) (l ++ [row]) = Some row).
    { intros l Hl. apply find_app_absent.
      - now rewrite existsb_find, Hl.
      - simpl. apply String.eqb_refl. }
    set (g := load_group (mkStore (groups s ++ [row]) (users s) (group_users s)
                                  (events s)) row).
    set (s1 := mkStore (groups s ++ [row]) (users s) (group_users s)
                 (events s ++ [mkEvent "groups.create" None (u_teamId (auth_user ctx))
                                       generated_id (u_id (auth_user ctx)) name
                                       (request_ip ctx)])).
    exists g, s1. split.
    { unfold groups_create, bind, authorize_team, Group_create, Group_findByPk_reject,
        Group_findByPk, modify, gets, ret; simpl.
      rewrite Hgranted; simpl. unfold bind; simpl. fold row.
      rewrite (Hfind _ Hfresh); simpl. reflexivity. }
    simpl. repeat split.
    intros ctx' Hread.
    assert (Hinfo : Group_findByPk generated_id s1 = (Ok (Some g), s1)).
    { unfold Group_findByPk, gets; simpl. rewrite (Hfind _ Hfresh). reflexivity. }
    unfold groups_info, bind. rewrite Hinfo. unfold authorize.
    rewrite Hread. reflexivity.
Qed.

Lemma groups_create_then_info_witness :
  exists g s1,
    groups_create (fun _ _ _ => true) Sample.ctx "g-new" "Design" Sample.with_members =
      (Ok g, s1) /\
    g_row g = mkGroupRow "g-new" "Design" "team-1" "u-admin" /\
    groupMemberships g = memberships_of Sample.with_members "g-new" /\
    groups s1 = (groups Sample.with_members ++ [g_row g])%list /\
    group_users s1 = group_users Sample.with_members /\
    users s1 = users Sample.with_members /\
    events s1 = (events Sample.with_members ++
                   [mkEvent "groups.create" None "team-1" "g-new" "u-admin" "Design"
                            "10.0.0.1"])%list /\
    forall ctx',
      Sample.allow_all (auth_user ctx') "read" (TGroup g) = true ->
      groups_info Sample.allow_all ctx' "g-new" s1 = (Ok g, s1).
Proof.
  destruct (groups_create_then_info Sample.allow_all (fun _ _ _ => true) Sample.ctx
              "g-new" "Design" Sample.with_members) as [_ H].
  apply H; reflexivity.
Defined.

(** ** The provisioning endpoint: removing members *)

Lemma op_remove_not_add (body : jsval) :
  op_is body "remove" = true -> op_is body "add" = false.
Proof.
  unfold op_is.
  destruct (optional (operation0 body) (get_prop "op")) as [[| | |op| |]|];
    try discriminate.
  intros H. apply String.eqb_eq in H. now subst op.
Qed.

Lemma filter_filter_and {A} (f g : A -> bool) (l : list A) :
  filter f (filter g l) = filter (fun x => g x && f x) l.
Proof.
  induction l as [|x l IH]; simpl; [reflexivity|].
  destruct (g x); simpl; [|exact IH].
  destruct (f x); simpl; now rewrite IH.
Qed.

Lemma filter_all {A} (f : A -> bool) (l : list A) :
  (forall x, In x l -> f x = true) -> filter f l = l.
Proof.
  induction l as [|x l IH]; simpl; intros H; [reflexivity|].
  rewrite (H x (or_introl eq_refl)). rewrite IH; [reflexivity|].
  intros y Hy. apply H. now right.
Qed.

Lemma sync_rows_remove (ctx : PatchCtx) (authorId : string) (u : User)
    (rows : list GroupUser) :
  op_is (request_body ctx) "remove" = true ->
  sync_rows ctx authorId u rows =
    filter (fun r => negb (same_pair (params_id ctx) (u_id u) r)) rows.
Proof.
  intros Hrem. unfold sync_rows.
  rewrite Hrem, (op_remove_not_add _ Hrem).
  destruct (existsb (same_pair (params_id ctx) (u_id u)) rows) eqn:E; [reflexivity|].
  symmetry. now apply filter_none.
Qed.

Lemma fold_remove (ctx : PatchCtx) (authorId : string) (us : list User)
    (rows : list GroupUser) :
  op_is (request_body ctx) "remove" = true ->
  fold_left (fun rows u => sync_rows ctx authorId u rows) us rows =
    without_users (params_id ctx) us rows.
Proof.
  intros Hrem. revert rows. unfold without_users.
  induction us as [|u us IH]; intros rows; simpl.
  - symmetry. now apply filter_all.
  - rewrite IH, sync_rows_remove by exact Hrem.
    rewrite filter_filter_and. apply filter_ext. intros r.
    now rewrite negb_orb.
Qed.

(** X9: with a non-empty DESK_UUID and Operations[0].op = "remove", a
    request whose emails are all strings succeeds on an existing group and
    deletes exactly the membership rows of this group that belong to a user
    the emails resolve to; every other row stays. *)
Theorem groups_patch_remove_deletes_memberships
    (ctx : PatchCtx) (s : Store) (authorId : string) (emails : list jsval)
    (r : GroupRow) :
  authorId_of ctx = Some authorId ->
  op_is (request_body ctx) "remove" = true ->
  arrayEmailAddresses (request_body ctx) = Some emails ->
  forallb is_string emails = true ->
  find (fun r => gr_id r =? params_id ctx) (groups s) = Some r ->
  exists b s',
    groups_patch ctx s = (Ok b, s') /\
    (forall x, In x (group_users s') <->
       In x (group_users s) /\
       ~ (gu_groupId x = params_id ctx /\
          exists u, In u (users s) /\ email_in emails u = true /\ gu_userId x = u_id u)) /\
    (forall u, In u (users s) -> email_in emails u = true ->
       pair_rows (params_id ctx) (u_id u) s' = []) /\
    (forall g' uid,
       g' <> params_id ctx \/
       (forall u, In u (users s) -> email_in emails u = true -> u_id u <> uid) ->
       pair_rows g' uid s' = pair_rows g' uid s).
Proof.
  intros Hauthor Hrem Hparse Hstrings Hfound.
  do 2 eexists.
  split; [exact (groups_patch_run ctx emails s r Hparse Hfound
                   (strings_bindable _ Hstrings))|].
  unfold pair_rows, patched_rows; simpl. rewrite Hauthor.
  rewrite (fold_remove ctx authorId _ _ Hrem).
  assert (Hin : forall x,
             In x (without_users (params_id ctx) (filter (email_in emails) (users s))
                                 (group_users s)) <->
             In x (group_users s) /\
             ~ (gu_groupId x = params_id ctx /\
                exists u, In u (users s) /\ email_in emails u = true /\
                          gu_userId x = u_id u)).
  { intros x. unfold without_users. rewrite filter_In, negb_true_iff.
    split; intros [Hx Hnot]; split; try exact Hx.
    - intros [Hgid [u [Hu [He Huid]]]].
      assert (Hex : existsb (fun u => same_pair (params_id ctx) (u_id u) x)
                            (filter (email_in emails) (users s)) = true).
      { apply existsb_exists. exists u. split; [apply filter_In; now split|].
        unfold same_pair. rewrite Hgid, Huid, !String.eqb_refl. reflexivity. }
      rewrite Hex in Hnot. discriminate.
    - apply not_true_is_false. intros Hex. apply Hnot.
      apply existsb_exists in Hex. destruct Hex as [u [Hu Hp]].
      apply filter_In in Hu. destruct Hu as [Hu He].
      unfold same_pair in Hp. apply andb_true_iff in Hp. destruct Hp as [Hg Hi].
      apply String.eqb_eq in Hg, Hi. split; [exact Hg|]. now exists u. }
  split; [exact Hin|]. split.
  - intros u Hu He. apply existsb_filter. apply not_true_is_false. intros Hex.
    apply existsb_exists in Hex. destruct Hex as [x [Hx Hp]].
    apply Hin in Hx. destruct Hx as [_ Hnot]. apply Hnot.
    unfold same_pair in Hp. apply andb_true_iff in Hp. destruct Hp as [Hg Hi].
    apply String.eqb_eq in Hg, Hi. split; [exact Hg|]. now exists u.
  - intros g' uid Hother.
    rewrite <- (fold_remove ctx authorId _ _ Hrem).
    apply fold_sync_rows_other.
    destruct Hother as [H|H]; [now left|]. right.
    intros u Hu. apply filter_In in Hu. destruct Hu as [Hu He]. now apply H.
Qed.

Lemma groups_patch_remove_deletes_memberships_witness :
  let ctx := Provisioning.request (Some "desk") "g-eng"
               (Provisioning.body "remove" [Provisioning.entry "jan@x.com"]) in
  let s := Sample.with_members in
  let emails := [Some (JStr "jan@x.com")] in
  exists b s',
    groups_patch ctx s = (Ok b, s') /\
    (forall x, In x (group_users s') <->
       In x (group_users s) /\
       ~ (gu_groupId x = params_id ctx /\
          exists u, In u (users s) /\ email_in emails u = true /\ gu_userId x = u_id u)) /\
    (forall u, In u (users s) -> email_in emails u = true ->
       pair_rows (params_id ctx) (u_id u) s' = []) /\
    (forall g' uid,
       g' <> params_id ctx \/
       (forall u, In u (users s) -> email_in emails u = true -> u_id u <> uid) ->
       pair_rows g' uid s' = pair_rows g' uid s).
Proof.
  apply (groups_patch_remove_deletes_memberships
           (Provisioning.request (Some "desk") "g-eng"
              (Provisioning.body "remove" [Provisioning.entry "jan@x.com"]))
           Sample.with_members "desk" [Some (JStr "jan@x.com")] Sample.eng);
    reflexivity.
Defined.

(** ** The provisioning endpoint: repeating and undoing a request *)

Lemma sync_rows_neither (ctx : PatchCtx) (authorId : string) (u : User)
    (rows : list GroupUser) :
  op_is (request_body ctx) "add" = false ->
  op_is (request_body ctx) "remove" = false ->
  sync_rows ctx authorId u rows = rows.
Proof.
  intros Hadd Hrem. unfold sync_rows. rewrite Hadd, Hrem.
  now destruct (existsb (same_pair (params_id ctx) (u_id u)) rows).
Qed.

Lemma fold_fixed {A B} (f : A -> B -> A) (l : list B) (a : A) :
  (forall b, In b l -> f a b = a) -> fold_left f l a = a.
Proof.
  induction l as [|b l IH]; simpl; intros H; [reflexivity|].
  rewrite (H b (or_introl eq_refl)). apply IH. intros c Hc. apply H. now right.
Qed.

Lemma fold_add_present (ctx : PatchCtx) (authorId : string) (us : list User)
    (rows : list GroupUser) (u : User) :
  op_is (request_body ctx) "add" = true ->
  In u us ->
  existsb (same_pair (params_id ctx) (u_id u))
          (fold_left (fun rows u => sync_rows ctx authorId u rows) us rows) = true.
Proof.
  intros Hadd Hin.
  destruct (existsb (same_pair (params_id ctx) (u_id u)) rows) eqn:E.
  - destruct (fold_extends ctx authorId Hadd us rows) as [added Hadded].
    rewrite Hadded, existsb_app, E. reflexivity.
  - pose proof (fold_creates_row ctx authorId Hadd us u rows Hin E) as H.
    destruct (existsb (same_pair (params_id ctx) (u_id u))
                (fold_left (fun rows u => sync_rows ctx authorId u rows) us rows))
      eqn:E'; [reflexivity|].
    apply existsb_filter in E'. rewrite E' in H. discriminate.
Qed.

Lemma fold_sync_twice (ctx : PatchCtx) (authorId : string) (us : list User)
    (rows : list GroupUser) :
  let step := fun rows u => sync_rows ctx authorId u rows in
  fold_left step us (fold_left step us rows) = fold_left step us rows.
Proof.
  intros step.
  destruct (op_is (request_body ctx) "add") eqn:Hadd.
  - apply fold_fixed. intros u Hu. unfold step at 1.
    rewrite sync_rows_add by exact Hadd.
    unfold step. now rewrite (fold_add_present ctx authorId us rows u Hadd Hu).
  - destruct (op_is (request_body ctx) "remove") eqn:Hrem.
    + unfold step. rewrite !(fold_remove ctx authorId _ _ Hrem).
      unfold without_users. rewrite filter_filter_and.
      apply filter_ext. intros r. apply andb_diag.
    + rewrite !(fold_left_ext step (fun rows _ => rows));
        try (intros a b; apply sync_rows_neither; assumption).
      clear. induction us as [|u us IH]; simpl; [reflexivity | exact IH].
Qed.

(** X10: the provisioning request is idempotent on the store: sending the
    same request again, whatever its body, changes nothing any more. *)
Theorem groups_patch_idempotent (ctx : PatchCtx) (s : Store) :
  snd (groups_patch ctx (snd (groups_patch ctx s))) = snd (groups_patch ctx s).
Proof.
  destruct (groups_patch_cases ctx s)
    as [[e Hr]|[emails [r [Hparse [Hfound [Hbind Hr]]]]]].
  - rewrite Hr. cbn [snd]. now rewrite Hr.
  - rewrite Hr. cbn [snd].
    rewrite (groups_patch_run ctx emails (with_rows s (patched_rows ctx emails s)) r
               Hparse Hfound Hbind). cbn [snd].
    unfold with_rows, patched_rows; simpl.
    destruct (authorId_of ctx) as [a|]; [|reflexivity].
    now rewrite fold_sync_twice.
Qed.

Lemma fold_add_rows (ctx : PatchCtx) (authorId : string) (us : list User)
    (rows : list GroupUser) :
  op_is (request_body ctx) "add" = true ->
  exists added,
    fold_left (fun rows u => sync_rows ctx authorId u rows) us rows =
      (rows ++ added)%list /\
    forall x, In x added ->
      exists u, In u us /\ same_pair (params_id ctx) (u_id u) x = true.
Proof.
  intros Hadd. revert rows. induction us as [|u us IH]; intros rows; simpl.
  - exists []. rewrite app_nil_r. split; [reflexivity | contradiction].
  - destruct (IH (sync_rows ctx authorId u rows)) as [added [Hfold Hadded]].
    rewrite Hfold, sync_rows_add by exact Hadd.
    destruct (existsb (same_pair (params_id ctx) (u_id u)) rows).
    + exists added. split; [reflexivity|].
      intros x Hx. destruct (Hadded x Hx) as [v [Hv Hp]]. exists v. split; [now right|exact Hp].
    + exists (mkGroupUser (params_id ctx) (u_id u) authorId (patch_time ctx) :: added).
      rewrite <- app_assoc. split; [reflexivity|].
      intros x [<-|Hx].
      * exists u. split; [now left | apply same_pair_refl].
      * destruct (Hadded x Hx) as [v [Hv Hp]]. exists v. split; [now right|exact Hp].
Qed.

(** X11: an "add" request followed by a "remove" request with the same
    emails restores the membership table, provided none of the resolved
    users was a member of the group before. *)
Theorem groups_patch_add_then_remove
    (ctx : PatchCtx) (remove_body : jsval) (s : Store) (authorId : string)
    (emails : list jsval) (r : GroupRow) :
  authorId_of ctx = Some authorId ->
  op_is (request_body ctx) "add" = true ->
  op_is remove_body "remove" = true ->
  arrayEmailAddresses (request_body ctx) = Some emails ->
  arrayEmailAddresses remove_body = Some emails ->
  find (fun r => gr_id r =? params_id ctx) (groups s) = Some r ->
  (forall u, In u (users s) -> email_in emails u = true ->
     pair_rows (params_id ctx) (u_id u) s = []) ->
  let s1 := snd (groups_patch ctx s) in
  let s2 := snd (groups_patch (with_body ctx remove_body) s1) in
  group_users s2 = group_users s /\ groups s2 = groups s /\ users s2 = users s.
Proof.
  intros Hauthor Hadd Hrem Hparse Hparse' Hfound Hnone s1 s2.
  unfold s2, s1.
  destruct (forallb bindable emails) eqn:Hbind.
  2:{ rewrite (groups_patch_unbindable ctx emails s r Hparse Hfound Hbind). cbn [snd].
      rewrite (groups_patch_unbindable (with_body ctx remove_body) emails s r
                 Hparse' Hfound Hbind).
      repeat split. }
  rewrite (groups_patch_run ctx emails s r Hparse Hfound Hbind). cbn [snd].
  rewrite (groups_patch_run (with_body ctx remove_body) emails
             (with_rows s (patched_rows ctx emails s)) r Hparse' Hfound Hbind). simpl.
  split; [|split; reflexivity].
  unfold patched_rows, authorId_of in *; simpl. 
  destruct (truthy (DESK_UUID ctx)); [|discriminate].
  rewrite Hauthor.
  rewrite (fold_remove (with_body ctx remove_body) authorId _ _ Hrem). simpl.
  destruct (fold_add_rows ctx authorId (filter (email_in emails) (users s))
              (group_users s) Hadd) as [added [Hfold Hadded]].
  rewrite Hfold. unfold without_users. rewrite filter_app.
  replace (filter _ added) with (@nil GroupUser).
  - rewrite app_nil_r. apply filter_all. intros x Hx.
    apply negb_true_iff. apply not_true_is_false. intros Hex.
    apply existsb_exists in Hex. destruct Hex as [u [Hu Hp]].
    apply filter_In in Hu. destruct Hu as [Hu He].
    specialize (Hnone u Hu He). unfold pair_rows in Hnone.
    apply existsb_filter in Hnone.
    assert (Hc : existsb (same_pair (params_id ctx) (u_id u)) (group_users s) = true)
      by (apply existsb_exists; now exists x).
    rewrite Hc in Hnone. discriminate.
  - symmetry. apply existsb_filter. apply not_true_is_false. intros Hex.
    apply existsb_exists in Hex. destruct Hex as [x [Hx Hneg]].
    destruct (Hadded x Hx) as [u [Hu Hp]].
    apply negb_true_iff in Hneg.
    assert (Hc : existsb (fun u => same_pair (params_id ctx) (u_id u) x)
                         (filter (email_in emails) (users s)) = true)
      by (apply existsb_exists; now exists u).
    rewrite Hc in Hneg. discriminate.
Qed.

Lemma groups_patch_add_then_remove_witness :
  let ctx := Provisioning.request (Some "desk") "g-ops" Provisioning.add_a_b in
  let remove_body := Provisioning.body "remove"
                       [Provisioning.entry "a@x.com"; Provisioning.entry "b@x.com"] in
  let s := Sample.with_members in
  let s1 := snd (groups_patch ctx s) in
  let s2 := snd (groups_patch (with_body ctx remove_body) s1) in
  group_users s2 = group_users s /\ groups s2 = groups s /\ users s2 = users s.
Proof.
  apply (groups_patch_add_then_remove
           (Provisioning.request (Some "desk") "g-ops" Provisioning.add_a_b)
           (Provisioning.body "remove"
              [Provisioning.entry "a@x.com"; Provisioning.entry "b@x.com"])
           Sample.with_members "desk"
           [Some (JStr "a@x.com"); Some (JStr "b@x.com")] Sample.ops);
    try reflexivity.
  intros u Hu He. simpl in Hu.
  destruct Hu as [<-|[<-|[<-|[]]]]; try reflexivity; discriminate.
Defined.

(** ** The provisioning endpoint: answer, failures and invariant *)

Lemma refused_not_bindable (emails : list jsval) :
  existsb refused emails = true -> forallb bindable emails = false.
Proof.
  induction emails as [|e emails IH]; simpl; [discriminate|].
  intros H. apply orb_true_iff in H. destruct H as [He|Hrest].
  - destruct e as [[| | | | |]|]; try discriminate; reflexivity.
  - rewrite (IH Hrest). apply andb_false_r.
Qed.

(** X13: a failed provisioning request has written nothing.  It fails with
    a TypeError exactly when the emails cannot be read from the body.  When
    they can and no group bears the id, it fails with a database error if
    the id is no uuid and with NotFound if the id is a uuid in canonical
    form.  On an existing group it fails with a database error if an email is
    a number, a boolean or an object; if the emails are all strings it
    answers ok: true with the group and the first membership of the group as
    they were fetched before the sync, and the users the emails resolve
    to. *)
Theorem groups_patch_answer (ctx : PatchCtx) (s : Store) :
  (forall e, fst (groups_patch ctx s) = Err e -> snd (groups_patch ctx s) = s) /\
  (fst (groups_patch ctx s) = Err TypeError <->
   arrayEmailAddresses (request_body ctx) = None) /\
  (forall emails,
     arrayEmailAddresses (request_body ctx) = Some emails ->
     find (fun r => gr_id r =? params_id ctx) (groups s) = None ->
     (uuid_syntax (params_id ctx) = false ->
      fst (groups_patch ctx s) = Err DatabaseError) /\
     (uuid_canonical (params_id ctx) = true ->
      fst (groups_patch ctx s) = Err NotFoundError)) /\
  (forall emails r,
     arrayEmailAddresses (request_body ctx) = Some emails ->
     find (fun r => gr_id r =? params_id ctx) (groups s) = Some r ->
     (existsb refused emails = true ->
      fst (groups_patch ctx s) = Err DatabaseError) /\
     (forallb is_string emails = true ->
      fst (groups_patch ctx s) =
        Ok (mkPatchBody true (load_group s r)
              (option_map (join_user s)
                 (find (fun x => gu_groupId x =? params_id ctx) (group_users s)))
              (filter (email_in emails) (users s))))).
Proof.
  split; [|split; [|split]].
  - intros e He.
    destruct (groups_patch_cases ctx s) as [[e' Hr]|[emails [r [_ [_ [_ Hr]]]]]];
      rewrite Hr in *; [reflexivity | discriminate].
  - destruct (arrayEmailAddresses (request_body ctx)) as [emails|] eqn:Hparse.
    + split; [|discriminate]. intros H.
      destruct (find (fun r => gr_id r =? params_id ctx) (groups s)) as [r|] eqn:Hfound.
      * destruct (forallb bindable emails) eqn:Hbind.
        -- rewrite (groups_patch_run ctx emails s r Hparse Hfound Hbind) in H.
           discriminate.
        -- rewrite (groups_patch_unbindable ctx emails s r Hparse Hfound Hbind) in H.
           discriminate.
      * rewrite (groups_patch_not_found ctx emails s Hparse Hfound) in H.
        simpl in H. destruct (uuid_syntax (params_id ctx)); discriminate.
    + rewrite (groups_patch_type_error ctx s Hparse). now split.
  - intros emails Hparse Hnone.
    rewrite (groups_patch_not_found ctx emails s Hparse Hnone). simpl. split.
    + intros Hsyntax. now rewrite Hsyntax.
    + intros Hcanonical. unfold uuid_canonical in Hcanonical.
      apply andb_true_iff in Hcanonical. destruct Hcanonical as [Hc _].
      apply andb_true_iff in Hc. destruct Hc as [Hc _].
      apply andb_true_iff in Hc. destruct Hc as [Hsyntax _].
      now rewrite Hsyntax.
  - intros emails r Hparse Hfound. split.
    + intros Hrefused.
      now rewrite (groups_patch_unbindable ctx emails s r Hparse Hfound
                     (refused_not_bindable _ Hrefused)).
    + intros Hstrings.
      now rewrite (groups_patch_run ctx emails s r Hparse Hfound
                     (strings_bindable _ Hstrings)).
Qed.

Lemma groups_patch_answer_witness :
  fst (groups_patch (Provisioning.request (Some "desk")
                       "a0eebc99-9c0b-4ef8-bb6d-6bb9bd380a11" Provisioning.add_a_b)
         Sample.with_members) = Err NotFoundError /\
  fst (groups_patch (Provisioning.request (Some "desk") "g-none" Provisioning.add_a_b)
         Sample.with_members) = Err DatabaseError /\
  fst (groups_patch (Provisioning.request (Some "desk") "g-ops"
                       (Provisioning.body "add" [JObj [("email", JNum 5)]]))
         Sample.with_members) = Err DatabaseError.
Proof.
  split; [|split].
  - destruct (groups_patch_answer
                (Provisioning.request (Some "desk")
                   "a0eebc99-9c0b-4ef8-bb6d-6bb9bd380a11" Provisioning.add_a_b)
                Sample.with_members) as [_ [_ [H _]]].
    apply (H [Some (JStr "a@x.com"); Some (JStr "b@x.com")]); reflexivity.
  - destruct (groups_patch_answer
                (Provisioning.request (Some "desk") "g-none" Provisioning.add_a_b)
                Sample.with_members) as [_ [_ [H _]]].
    apply (H [Some (JStr "a@x.com"); Some (JStr "b@x.com")]); reflexivity.
  - destruct (groups_patch_answer
                (Provisioning.request (Some "desk") "g-ops"
                   (Provisioning.body "add" [JObj [("email", JNum 5)]]))
                Sample.with_members) as [_ [_ [_ H]]].
    apply (H [Some (JNum 5)] Sample.ops); reflexivity.
Defined.

Lemma sync_rows_unique (ctx : PatchCtx) (authorId : string) (u : User)
    (rows : list GroupUser) :
  unique_pairs rows -> unique_pairs (sync_rows ctx authorId u rows).
Proof.
  intros H. unfold sync_rows.
  destruct (existsb (same_pair (params_id ctx) (u_id u)) rows) eqn:E.
  - destruct (op_is (request_body ctx) "remove"); [|exact H].
    now apply unique_pairs_filter.
  - destruct (op_is (request_body ctx) "add"); [|exact H].
    now apply unique_pairs_add.
Qed.

(** X14: the provisioning request keeps the invariant of the membership
    table: when no (group, user) pair has more than one row before, none has
    afterwards, whatever the request. *)
Theorem groups_patch_pairs_stay_unique (ctx : PatchCtx) (s : Store) :
  unique_pairs (group_users s) ->
  unique_pairs (group_users (snd (groups_patch ctx s))).
Proof.
  intros Huniq.
  destruct (groups_patch_cases ctx s)
    as [[e Hr]|[emails [r [Hparse [Hfound [Hbind Hr]]]]]].
  - now rewrite Hr.
  - rewrite Hr. simpl. clear Hr.
    unfold patched_rows. destruct (authorId_of ctx) as [a|]; [|exact Huniq].
    generalize (filter (email_in emails) (users s)) as us.
    generalize dependent (group_users s).
    intros rows Hrows us. revert rows Hrows.
    induction us as [|u us IH]; intros rows Hrows; simpl; [exact Hrows|].
    apply IH. now apply sync_rows_unique.
Qed.

Lemma groups_patch_pairs_stay_unique_witness :
  unique_pairs
    (group_users (snd (groups_patch
                         (Provisioning.request (Some "desk") "g-ops" Provisioning.add_a_b)
                         Sample.empty_groups))).
Proof.
  apply groups_patch_pairs_stay_unique.
  intros g u. simpl. lia.
Defined.

(** ** Reading the emails from the body *)

Lemma map_email_objects (items : list json) :
  (forall x, In x items -> x <> JNull) ->
  map_email items = Some (map (get_prop "email") items).
Proof.
  induction items as [|x items IH]; simpl; intros H; [reflexivity|].
  rewrite IH by (intros y Hy; apply H; now right).
  assert (Hx : x <> JNull) by (apply H; now left).
  destruct x; try reflexivity. now elim Hx.
Qed.

Lemma map_email_null (items : list json) :
  In JNull items -> map_email items = None.
Proof.
  induction items as [|x items IH]; simpl; [contradiction|].
  intros [->|H]; [reflexivity|].
  rewrite (IH H). now destruct (email_of x).
Qed.

(** X15: when the body is an object whose Operations is an array that
    starts with an object, and the value of that object is an array, the
    emails are read from the elements of value, one for each element and in
    their order (undefined where an element has no email), whatever else the
    body, the operation or the further operations hold; a null element makes
    the read, and with it the request, fail with a TypeError and no write. *)
Theorem arrayEmailAddresses_in_order
    (fields operation : list (string * json)) (more : list json) (items : list json) :
  lookup "Operations" fields = Some (JArr (JObj operation :: more)) ->
  lookup "value" operation = Some (JArr items) ->
  ((forall x, In x items -> x <> JNull) ->
   arrayEmailAddresses (Some (JObj fields)) = Some (map (get_prop "email") items)) /\
  (In JNull items ->
   forall ctx s,
     request_body ctx = Some (JObj fields) ->
     groups_patch ctx s = (Err TypeError, s)).
Proof.
  intros Hops Hvalue.
  assert (Harr : arrayUsers (Some (JObj fields)) = JArr items).
  { unfold arrayUsers, operation0; simpl. rewrite Hops; simpl. now rewrite Hvalue. }
  split.
  - intros Hobjects. unfold arrayEmailAddresses. rewrite Harr.
    now apply map_email_objects.
  - intros Hnull ctx s Hbody. apply groups_patch_type_error.
    rewrite Hbody. unfold arrayEmailAddresses. rewrite Harr.
    now apply map_email_null.
Qed.

Lemma arrayEmailAddresses_in_order_witness :
  arrayEmailAddresses
    (Some (JObj [("schemas", JArr []);
                 ("Operations",
                  JArr [JObj [("op", JStr "add");
                              ("value", JArr [Provisioning.entry "a@x.com"; JObj []])];
                        JNum 3])])) =
    Some [Some (JStr "a@x.com"); None].
Proof.
  destruct (arrayEmailAddresses_in_order
              [("schemas", JArr []);
               ("Operations",
                JArr [JObj [("op", JStr "add");
                            ("value", JArr [Provisioning.entry "a@x.com"; JObj []])];
                      JNum 3])]
              [("op", JStr "add");
               ("value", JArr [Provisioning.entry "a@x.com"; JObj []])]
              [JNum 3] [Provisioning.entry "a@x.com"; JObj []]
              eq_refl eq_refl) as [H _].
  apply H. intros x [<-|[<-|[]]]; discriminate.
Defined.

(** ** Pages *)

Lemma insert_by_length {A} (leb : A -> A -> bool) (x : A) (l : list A) :
  List.length (insert_by leb x l) = S (List.length l).
Proof.
  induction l as [|y l IH]; simpl; [reflexivity|].
  destruct (leb x y); simpl; [reflexivity | now rewrite IH].
Qed.

Lemma sort_by_length {A} (leb : A -> A -> bool) (l : list A) :
  List.length (sort_by leb l) = List.length l.
Proof.
  induction l as [|x l IH]; simpl; [reflexivity|].
  now rewrite insert_by_length, IH.
Qed.

Lemma page_length {A} (p : Pagination) (l : list A) :
  List.length (page p l) <= limit p.
Proof. unfold page. apply firstn_le_length. Qed.

Lemma page_all {A} (p : Pagination) (l : list A) :
  offset p = 0 -> List.length l <= limit p -> page p l = l.
Proof.
  intros Ho Hl. unfold page. rewrite Ho. simpl. now apply firstn_all2.
Qed.

Lemma filter_length_le {A} (f : A -> bool) (l : list A) :
  List.length (filter f l) <= List.length l.
Proof.
  induction l as [|x l IH]; simpl; [lia|].
  destruct (f x); simpl; lia.
Qed.

Lemma concat_length_le {A B} (f : A -> list B) (n : nat) (l : list A) :
  (forall x, List.length (f x) <= n) ->
  List.length (List.concat (map f l)) <= List.length l * n.
Proof.
  intros H. induction l as [|x l IH]; simpl; [lia|].
  rewrite length_app. specialize (H x). lia.
Qed.

(** X16: groups.list answers with at most [limit] groups and at most
    [limit * MAX_AVATAR_DISPLAY] memberships; when the page is not cut
    (offset 0 and a limit no smaller than the groups table) every group of
    the team of the actor that passes the name and member filters is in the
    answer. *)
Theorem groups_list_page
    (MAX_AVATAR_DISPLAY : nat)
    (group_column_leb : string -> GroupRow -> GroupRow -> bool)
    (ctx : Ctx) (input : GroupsListReq) (s : Store) :
  exists body,
    groups_list MAX_AVATAR_DISPLAY group_column_leb ctx input s = (Ok body, s) /\
    List.length (lb_groups body) <= limit (pagination ctx) /\
    List.length (lb_groupMemberships body) <= limit (pagination ctx) * MAX_AVATAR_DISPLAY /\
    (offset (pagination ctx) = 0 ->
     List.length (groups s) <= limit (pagination ctx) ->
     forall r,
       In r (groups s) ->
       gr_teamId r = u_teamId (auth_user ctx) ->
       (forall name, list_name input = Some name -> name <> "" -> gr_name r = name) ->
       (forall uid, list_userId input = Some uid -> uid <> "" ->
          exists row, In row (group_users s) /\
                      gu_groupId row = gr_id r /\ gu_userId row = uid) ->
       In (load_group s r) (lb_groups body)).
Proof.
  eexists. split; [reflexivity|]. simpl. split; [apply page_length|].
  split.
  { eapply Nat.le_trans.
    - apply concat_length_le with (n := MAX_AVATAR_DISPLAY).
      intros g. apply firstn_le_length.
    - apply Nat.mul_le_mono_r. apply page_length. }
  intros Ho Hl r Hr Hteam Hname Hmember.
  rewrite page_all.
  - apply sort_by_In. apply filter_In. split; [now apply in_map|].
    apply andb_true_iff. split.
    + unfold filterByMember. destruct (list_userId input) as [uid|]; [|reflexivity].
      simpl. destruct (uid =? "") eqn:E; [reflexivity|]. simpl.
      apply String.eqb_neq in E.
      destruct (Hmember uid eq_refl E) as [row [Hrow [Hg Hu]]].
      apply existsb_exists. exists (join_user s row). split.
      * unfold memberships_of. apply in_map. apply filter_In.
        split; [exact Hrow | now apply String.eqb_eq].
      * simpl. now apply String.eqb_eq.
    + apply andb_true_iff. split.
      * unfold g_teamId. simpl. now apply String.eqb_eq.
      * destruct (list_name input) as [name|]; [|reflexivity].
        simpl. destruct (name =? "") eqn:E; [reflexivity|]. simpl.
        apply String.eqb_neq in E. unfold g_name; simpl.
        apply String.eqb_eq. now apply Hname.
  - exact Ho.
  - rewrite sort_by_length. eapply Nat.le_trans; [apply filter_length_le|].
    now rewrite length_map.
Qed.

(** X17: groups.memberships answers with at most [limit] memberships and,
    beside them, their users, one for each membership and none missing;
    when the page is not cut (offset 0 and a limit no smaller than the
    membership table) every membership row of the group whose user exists
    and passes the name filter is in the answer. *)
Theorem groups_memberships_page
    (can : User -> string -> target -> bool) (db_lower : character -> character)
    (ctx : Ctx) (input : GroupsMembershipsReq) (s : Store) (r : GroupRow) :
  find (fun r => gr_id r =? mem_id input) (groups s) = Some r ->
  can (auth_user ctx) "read" (TGroup (load_group s r)) = true ->
  exists body,
    groups_memberships can db_lower ctx input s = (Ok body, s) /\
    List.length (mb_groupMemberships body) <= limit (pagination ctx) /\
    mb_users body = map m_user (mb_groupMemberships body) /\
    (forall o, In o (mb_users body) -> exists u, o = Some u /\ In u (users s)) /\
    (offset (pagination ctx) = 0 ->
     List.length (group_users s) <= limit (pagination ctx) ->
     forall row,
       In row (group_users s) ->
       gu_groupId row = mem_id input ->
       user_matches db_lower (userWhere_of (mem_query input)) (join_user s row) = true ->
       In (join_user s row) (mb_groupMemberships body)).
Proof.
  intros Hfound Hallowed.
  eexists. split.
  { unfold groups_memberships, bind, Group_findByPk, GroupUser_findAll, gets,
      authorize; simpl.
    rewrite Hfound; simpl. rewrite Hallowed; simpl. reflexivity. }
  simpl. split; [apply page_length|]. split; [reflexivity|]. split.
  - intros o Ho. apply in_map_iff in Ho. destruct Ho as [m [<- Hm]].
    apply page_incl in Hm. apply sort_by_In in Hm. apply filter_In in Hm.
    destruct Hm as [Hin Hmatch].
    unfold memberships_of in Hin. apply in_map_iff in Hin.
    destruct Hin as [row [<- _]]. simpl in *.
    unfold user_matches in Hmatch. simpl in Hmatch.
    destruct (find (fun u => u_id u =? gu_userId row) (users s)) as [u|] eqn:Hu;
      [|discriminate].
    exists u. split; [reflexivity|]. now destruct (find_user_id _ _ _ Hu).
  - intros Ho Hl row Hrow Hgid Hmatch.
    rewrite page_all.
    + apply sort_by_In. apply filter_In. split; [|exact Hmatch].
      unfold memberships_of. apply in_map. apply filter_In.
      split; [exact Hrow | now apply String.eqb_eq].
    + exact Ho.
    + rewrite sort_by_length. eapply Nat.le_trans; [apply filter_length_le|].
      unfold memberships_of. rewrite length_map.
      eapply Nat.le_trans; [apply filter_length_le | exact Hl].
Qed.

Lemma groups_memberships_page_witness :
  exists body,
    groups_memberships Sample.allow_all lower_C Sample.ctx
      (mkGroupsMembershipsReq "g-eng" None) Sample.with_members =
      (Ok body, Sample.with_members) /\
    List.length (mb_groupMemberships body) <= limit (pagination Sample.ctx) /\
    mb_users body = map m_user (mb_groupMemberships body) /\
    (forall o, In o (mb_users body) ->
               exists u, o = Some u /\ In u (users Sample.with_members)) /\
    (offset (pagination Sample.ctx) = 0 ->
     List.length (group_users Sample.with_members) <= limit (pagination Sample.ctx) ->
     forall row,
       In row (group_users Sample.with_members) ->
       gu_groupId row = "g-eng" ->
       user_matches lower_C (userWhere_of None) (join_user Sample.with_members row) = true ->
       In (join_user Sample.with_members row) (mb_groupMemberships body)).
Proof.
  apply (groups_memberships_page Sample.allow_all lower_C Sample.ctx
           (mkGroupsMembershipsReq "g-eng" None) Sample.with_members Sample.eng);
    reflexivity.
Defined.
